(** * Z-Image front end: model registry, selection, generation guard and
      WebSocket session

    A shallow embedding of the TypeScript client under [frontend/src]:
    - [types.ts]              the data model ([Model], [DownloadProgress], messages);
    - [store.ts]              the zustand store and its actions;
    - [App.tsx]               the dispatch of WebSocket messages to the store;
    - [components/GeneratePage.tsx]  [handleGenerate] and [canGenerate];
    - [hooks/useWebSocket.ts] [connect], [disconnect], [send] and the socket
                              event handlers.

    The store is a record and every action is a function from store to store.
    An [async] action is split at its [await]: the part before it returns the
    request it issues, the part after it is a function of the settled result.
    Refs of the hook ([wsRef], [mountedRef], [reconnectTimeoutRef]) are fields
    of the session state, next to the browser objects they point to (the
    sockets created so far and the pending timeouts). *)

From Stdlib Require Import List String Bool Arith ZArith NArith PArith Lia.
From Stdlib Require Import Floats.PrimFloat.
From Stdlib Require Import DecimalString.
Import ListNotations.
Local Open Scope string_scope.
Local Open Scope list_scope.

(** ** JavaScript values *)

Module JS.

(** A JS [number] is a binary64 float. *)
Definition number : Set := float.

(** Identifiers, names and messages are only compared and tested for
    emptiness: they are plain strings.  The prompt is trimmed, and what
    [trim] removes depends on code units beyond ASCII, so a trimmed string is
    kept as its sequence of UTF-16 code units. *)
Definition jsstring : Set := list N.

(** Truthiness of a value of type [string | null | undefined]: [None]
    stands for [null] and [undefined], and the empty string is falsy. *)
Definition truthy (v : option string) : bool :=
  match v with
  | Some s => negb (s =? "")
  | None => false
  end.

(** [a || b] *)
Definition or_else (a b : option string) : option string :=
  if truthy a then a else b.

(** [a ?? b] *)
Definition nullish {A : Type} (a b : option A) : option A :=
  match a with
  | Some _ => a
  | None => b
  end.

(** [WhiteSpace] and [LineTerminator] of ECMAScript, the code points
    [String.prototype.trim] strips: TAB, VT, FF, SP, NBSP, ZWNBSP, the
    category Zs, and LF, CR, LS, PS.  All lie in the basic plane. *)
Definition isWhiteSpace (c : N) : bool :=
  ((c =? 0x09) || (c =? 0x0B) || (c =? 0x0C) || (c =? 0x20) || (c =? 0xA0)
   || (c =? 0xFEFF) || (c =? 0x1680) || ((0x2000 <=? c) && (c <=? 0x200A))
   || (c =? 0x202F) || (c =? 0x205F) || (c =? 0x3000)
   || (c =? 0x0A) || (c =? 0x0D) || (c =? 0x2028) || (c =? 0x2029))%N.

Fixpoint trimStart (s : jsstring) : jsstring :=
  match s with
  | [] => []
  | c :: r => if isWhiteSpace c then trimStart r else s
  end.

Definition trimEnd (s : jsstring) : jsstring := rev (trimStart (rev s)).

Definition trim (s : jsstring) : jsstring := trimEnd (trimStart s).

(** Truthiness of a string: non-empty. *)
Definition nonEmpty (s : jsstring) : bool :=
  match s with
  | [] => false
  | _ :: _ => true
  end.

Definition whitespaceOnly (s : jsstring) : bool := forallb isWhiteSpace s.

(** The code units of an ASCII literal. *)
Definition lit (s : string) : jsstring :=
  map (fun a => N.of_nat (Ascii.nat_of_ascii a)) (list_ascii_of_string s).

(** The two halves of a surrogate pair. *)
Definition isLeadSurrogate (c : N) : bool :=
  ((0xD800 <=? c) && (c <=? 0xDBFF))%N.

Definition isTrailSurrogate (c : N) : bool :=
  ((0xDC00 <=? c) && (c <=? 0xDFFF))%N.

(** The conversion of a string to a USVString, which [FormData.append]
    applies to its arguments: a surrogate that is not half of a pair becomes
    U+FFFD, everything else is kept. *)
Fixpoint toUSVString (s : jsstring) : jsstring :=
  match s with
  | [] => []
  | c :: r =>
      if isLeadSurrogate c
      then
        match r with
        | d :: r' =>
            if isTrailSurrogate d
            then c :: d :: toUSVString r'
            else 0xFFFD%N :: toUSVString r
        | [] => [0xFFFD%N]
        end
      else if isTrailSurrogate c then 0xFFFD%N :: toUSVString r
      else c :: toUSVString r
  end.

End JS.

Infix "<||>" := JS.or_else (at level 51, right associativity).
Infix "??" := JS.nullish (at level 51, right associativity).

(** ** types.ts *)

Inductive ModelState : Set :=
| not_downloaded
| downloading
| downloaded
| loading
| ready
| error.

Definition ModelState_eqb (a b : ModelState) : bool :=
  match a, b with
  | not_downloaded, not_downloaded
  | downloading, downloading
  | downloaded, downloaded
  | loading, loading
  | ready, ready
  | error, error => true
  | _, _ => false
  end.

Record DownloadProgress : Set := {
  total_size : JS.number;
  downloaded_size : JS.number;
  current_file : string;
  files_completed : JS.number;
  total_files : JS.number;
  speed : JS.number;
  eta : JS.number;
  percent : JS.number
}.

Module Model.
Record t : Set := {
  id : string;
  name : string;
  description : string;
  recommended_steps : JS.number;
  recommended_guidance : JS.number;
  size_gb : JS.number;
  state : ModelState;
  progress : option DownloadProgress;
  error : option string;
  is_current : bool
}.
End Model.

Module GpuInfo.
Record t : Set := {
  name : string;
  memory_total : JS.number;
  memory_allocated : JS.number;
  memory_cached : JS.number
}.
End GpuInfo.

Record SystemInfo : Set := {
  device : string;
  cuda_available : bool;
  mps_available : bool;
  gpu_info : option GpuInfo.t;
  torch_version : string
}.

Module GenerationRequest.
Record t : Set := {
  prompt : JS.jsstring;
  model_id : string;
  width : JS.number;
  height : JS.number;
  num_inference_steps : JS.number;
  guidance_scale : JS.number;
  seed : option JS.number;
  negative_prompt : option string
}.
End GenerationRequest.

Module GeneratedImage.
Record t : Set := {
  image_id : string;
  image_url : string;
  image_base64 : option string;
  prompt : JS.jsstring;
  model_id : string;
  width : JS.number;
  height : JS.number;
  seed : JS.number;
  generation_time : JS.number
}.
End GeneratedImage.

(** [WebSocketMessage]: a tagged union on [type].  Only [model_status] has
    fields the client reads; every [type] the client does not know is
    [unknown]. *)
Inductive WebSocketMessage : Set :=
| initial_state
| model_status (model_id : string) (state : ModelState)
               (progress : option DownloadProgress) (error : option string)
| generation_start
| generation_complete
| generation_error
| heartbeat
| pong
| unknown (type : string).

Inductive AppView : Set := init | generate | gallery.

(** ** store.ts *)

Module Store.

Record AppState : Set := {
  systemInfo : option SystemInfo;
  isConnected : bool;
  connectionError : option string;
  models : list Model.t;
  selectedModelId : option string;
  isGenerating : bool;
  generatedImages : list GeneratedImage.t;
  currentPrompt : JS.jsstring;
  generationError : option string;
  currentView : AppView
}.

(** The state [create] starts from. *)
Definition initial : AppState := {|
  systemInfo := None;
  isConnected := false;
  connectionError := None;
  models := [];
  selectedModelId := None;
  isGenerating := false;
  generatedImages := [];
  currentPrompt := [];
  generationError := None;
  currentView := init
|}.

(** [set({ field: v })] merges one field into the state, one function per
    field the actions write. *)
Definition with_systemInfo (v : option SystemInfo) (s : AppState) : AppState :=
  {| systemInfo := v; isConnected := isConnected s;
     connectionError := connectionError s; models := models s;
     selectedModelId := selectedModelId s; isGenerating := isGenerating s;
     generatedImages := generatedImages s; currentPrompt := currentPrompt s;
     generationError := generationError s; currentView := currentView s |}.

Definition with_connection (c : bool) (e : option string) (s : AppState)
  : AppState :=
  {| systemInfo := systemInfo s; isConnected := c;
     connectionError := e; models := models s;
     selectedModelId := selectedModelId s; isGenerating := isGenerating s;
     generatedImages := generatedImages s; currentPrompt := currentPrompt s;
     generationError := generationError s; currentView := currentView s |}.

Definition with_models (v : list Model.t) (s : AppState) : AppState :=
  {| systemInfo := systemInfo s; isConnected := isConnected s;
     connectionError := connectionError s; models := v;
     selectedModelId := selectedModelId s; isGenerating := isGenerating s;
     generatedImages := generatedImages s; currentPrompt := currentPrompt s;
     generationError := generationError s; currentView := currentView s |}.

Definition with_selectedModelId (v : option string) (s : AppState) : AppState :=
  {| systemInfo := systemInfo s; isConnected := isConnected s;
     connectionError := connectionError s; models := models s;
     selectedModelId := v; isGenerating := isGenerating s;
     generatedImages := generatedImages s; currentPrompt := currentPrompt s;
     generationError := generationError s; currentView := currentView s |}.

Definition with_isGenerating (v : bool) (s : AppState) : AppState :=
  {| systemInfo := systemInfo s; isConnected := isConnected s;
     connectionError := connectionError s; models := models s;
     selectedModelId := selectedModelId s; isGenerating := v;
     generatedImages := generatedImages s; currentPrompt := currentPrompt s;
     generationError := generationError s; currentView := currentView s |}.

Definition with_generatedImages (v : list GeneratedImage.t) (s : AppState)
  : AppState :=
  {| systemInfo := systemInfo s; isConnected := isConnected s;
     connectionError := connectionError s; models := models s;
     selectedModelId := selectedModelId s; isGenerating := isGenerating s;
     generatedImages := v; currentPrompt := currentPrompt s;
     generationError := generationError s; currentView := currentView s |}.

Definition with_currentPrompt (v : JS.jsstring) (s : AppState) : AppState :=
  {| systemInfo := systemInfo s; isConnected := isConnected s;
     connectionError := connectionError s; models := models s;
     selectedModelId := selectedModelId s; isGenerating := isGenerating s;
     generatedImages := generatedImages s; currentPrompt := v;
     generationError := generationError s; currentView := currentView s |}.

Definition with_generationError (v : option string) (s : AppState) : AppState :=
  {| systemInfo := systemInfo s; isConnected := isConnected s;
     connectionError := connectionError s; models := models s;
     selectedModelId := selectedModelId s; isGenerating := isGenerating s;
     generatedImages := generatedImages s; currentPrompt := currentPrompt s;
     generationError := v; currentView := currentView s |}.

Definition with_currentView (v : AppView) (s : AppState) : AppState :=
  {| systemInfo := systemInfo s; isConnected := isConnected s;
     connectionError := connectionError s; models := models s;
     selectedModelId := selectedModelId s; isGenerating := isGenerating s;
     generatedImages := generatedImages s; currentPrompt := currentPrompt s;
     generationError := generationError s; currentView := v |}.

(** *** Actions *)

Definition setSystemInfo (info : SystemInfo) : AppState -> AppState :=
  with_systemInfo (Some info).

(** [error] defaults to [null]. *)
Definition setConnectionStatus (connected : bool) (err : option string)
  : AppState -> AppState :=
  with_connection connected err.

(** [models.find((m) => m.state === st)] *)
Definition findState (st : ModelState) (ms : list Model.t) : option Model.t :=
  find (fun m => ModelState_eqb (Model.state m) st) ms.

(** [m?.id] *)
Definition id_of (m : option Model.t) : option string :=
  option_map Model.id m.

(** [setModels]: the list replaces [models]; [selectedModelId] becomes
    [currentSelected || readyModel?.id || downloadedModel?.id ||
     models[0]?.id || null]. *)
Definition setModels (ms : list Model.t) (s : AppState) : AppState :=
  let readyModel := findState ready ms in
  let downloadedModel := findState downloaded ms in
  let currentSelected := selectedModelId s in
  with_selectedModelId
    (currentSelected <||> id_of readyModel <||> id_of downloadedModel
     <||> id_of (hd_error ms) <||> None)
    (with_models ms s).

(** The object the [map] of [updateModelStatus] builds for a record whose
    id matches: [{ ...m, state, progress: progress ?? m.progress,
    error: error ?? m.error }]. *)
Definition merged (m : Model.t) (st : ModelState)
           (progress : option DownloadProgress) (err : option string)
  : Model.t :=
  {| Model.id := Model.id m;
     Model.name := Model.name m;
     Model.description := Model.description m;
     Model.recommended_steps := Model.recommended_steps m;
     Model.recommended_guidance := Model.recommended_guidance m;
     Model.size_gb := Model.size_gb m;
     Model.state := st;
     Model.progress := progress ?? Model.progress m;
     Model.error := err ?? Model.error m;
     Model.is_current := Model.is_current m |}.

Definition updateModels (modelId : string) (st : ModelState)
           (progress : option DownloadProgress) (err : option string)
           (ms : list Model.t) : list Model.t :=
  map (fun m => if Model.id m =? modelId then merged m st progress err else m)
      ms.

Definition updateModelStatus (modelId : string) (st : ModelState)
           (progress : option DownloadProgress) (err : option string)
           (s : AppState) : AppState :=
  with_models (updateModels modelId st progress err (models s)) s.

Definition setSelectedModel (modelId : string) : AppState -> AppState :=
  with_selectedModelId (Some modelId).

Definition setCurrentView : AppView -> AppState -> AppState :=
  with_currentView.

Definition setGenerating : bool -> AppState -> AppState :=
  with_isGenerating.

Definition addGeneratedImage (image : GeneratedImage.t) (s : AppState)
  : AppState :=
  with_generatedImages (image :: generatedImages s) s.

Definition setCurrentPrompt : JS.jsstring -> AppState -> AppState :=
  with_currentPrompt.

Definition setGenerationError : option string -> AppState -> AppState :=
  with_generationError.

(** *** Async actions, after their [await]

    [fetchModels] awaits [api.getModels()]: a fulfilled promise carries the
    list and goes to [setModels], a rejected one is only logged. *)
Definition fetchModels_settled (r : option (list Model.t)) (s : AppState)
  : AppState :=
  match r with
  | Some ms => setModels ms s
  | None => s
  end.

(** [downloadModel] and [loadModel] await the POST; a rejection records
    [String(err)] on the model, a fulfilment changes nothing. *)
Definition downloadModel_settled (modelId : string) (r : option string)
           (s : AppState) : AppState :=
  match r with
  | None => s
  | Some text => updateModelStatus modelId error None (Some text) s
  end.

Definition loadModel_settled := downloadModel_settled.

End Store.

(** ** App.tsx *)

Module App.

(** Requests a handler starts and does not wait for. *)
Inductive Fetch : Set := fetchModels | fetchSystemInfo.

(** [handleWebSocketMessage]: the [switch] on [message.type].  The result is
    the store after the synchronous part and the fetches started; the
    [default] branch only logs. *)
Definition handleWebSocketMessage (message : WebSocketMessage)
           (s : Store.AppState) : Store.AppState * list Fetch :=
  match message with
  | initial_state => (s, [fetchModels])
  | model_status model_id state progress err =>
      (Store.updateModelStatus model_id state progress err s, [])
  | generation_start
  | generation_complete
  | generation_error
  | heartbeat
  | pong => (s, [])
  | unknown _ => (s, [])
  end.

Definition handleConnect (s : Store.AppState) : Store.AppState * list Fetch :=
  (Store.setConnectionStatus true None s, [fetchModels; fetchSystemInfo]).

Definition handleDisconnect (s : Store.AppState) : Store.AppState :=
  Store.setConnectionStatus false None s.

(** Whether a message is [initial_state]. *)
Definition isInitialState (message : WebSocketMessage) : bool :=
  match message with
  | initial_state => true
  | _ => false
  end.

(** The store after the handlers of a sequence of messages have returned,
    and the fetches they started, in order; no fetch has settled yet. *)
Fixpoint dispatch (msgs : list WebSocketMessage) (s : Store.AppState)
  : Store.AppState * list Fetch :=
  match msgs with
  | [] => (s, [])
  | message :: rest =>
      let r := handleWebSocketMessage message s in
      let r' := dispatch rest (fst r) in
      (fst r', snd r ++ snd r')
  end.

(** The store after a sequence of messages, fetches dropped. *)
Definition deliver (msgs : list WebSocketMessage) (s : Store.AppState)
  : Store.AppState :=
  fold_left (fun acc m => fst (handleWebSocketMessage m acc)) msgs s.

End App.

(** ** components/GeneratePage.tsx *)

Module GeneratePage.

Inductive GenerationMode : Set := txt2img | img2img.

(** What the rejected promise of [api.generateImage] carries: [api.request]
    throws [new Error(detail)], [fetch] itself an [Error] too; anything else
    is not an [Error] instance. *)
Inductive Thrown : Set :=
| ErrorObject (message : string)
| OtherValue.

Section Page.

(** The browser's [File] objects and [parseInt] are taken as given. *)
Variable File : Type.
Variable parseInt : string -> JS.number.

(** The [useState] values of the page that [handleGenerate] reads. *)
Record PageState : Type := {
  mode : GenerationMode;
  width : JS.number;
  height : JS.number;
  steps : JS.number;
  guidance : JS.number;
  seed : string;
  negativePrompt : string;
  referenceImage : option File;
  imageStrength : JS.number
}.

(** The options object of [api.generateImg2Img]. *)
Record Img2ImgOptions : Set := {
  model_id : option string;
  num_inference_steps : option JS.number;
  image_strength : option JS.number;
  img_seed : option JS.number
}.

(** The two requests of the page. *)
Inductive ApiCall : Type :=
| generateImg2Img (prompt : JS.jsstring) (image : File)
                  (options : Img2ImgOptions)
| generateImage (request : GenerationRequest.t).

(** [seed ? parseInt(seed) : undefined] *)
Definition seedOf (sd : string) : option JS.number :=
  if sd =? "" then None else Some (parseInt sd).

(** [negativePrompt || undefined] *)
Definition negativeOf (np : string) : option string :=
  if np =? "" then None else Some np.

Definition isImg2img (m : GenerationMode) : bool :=
  match m with img2img => true | txt2img => false end.

Definition isNull {A : Type} (o : option A) : bool :=
  match o with Some _ => false | None => true end.

(** The narrowed [selectedModelId] past the guard. *)
Definition narrowed (v : option string) : string :=
  match v with Some i => i | None => "" end.

(** [handleGenerate] up to its [await]: the two early returns, the two store
    writes, and the request issued. *)
Definition handleGenerate (p : PageState) (s : Store.AppState)
  : Store.AppState * option ApiCall :=
  if negb (JS.nonEmpty (JS.trim (Store.currentPrompt s)))
     || negb (JS.truthy (Store.selectedModelId s))
     || Store.isGenerating s
  then (s, None)
  else if isImg2img (mode p) && isNull (referenceImage p)
  then (s, None)
  else
    let s1 := Store.setGenerationError None (Store.setGenerating true s) in
    let selectedModelId := narrowed (Store.selectedModelId s) in
    (s1,
     Some
       match mode p, referenceImage p with
       | img2img, Some image =>
           generateImg2Img (Store.currentPrompt s) image
             {| model_id := Some selectedModelId;
                num_inference_steps := Some (steps p);
                image_strength := Some (imageStrength p);
                img_seed := seedOf (seed p) |}
       | _, _ =>
           generateImage
             {| GenerationRequest.prompt := Store.currentPrompt s;
                GenerationRequest.model_id := selectedModelId;
                GenerationRequest.width := width p;
                GenerationRequest.height := height p;
                GenerationRequest.num_inference_steps := steps p;
                GenerationRequest.guidance_scale := guidance p;
                GenerationRequest.seed := seedOf (seed p);
                GenerationRequest.negative_prompt :=
                  negativeOf (negativePrompt p) |}
       end).

(** [handleGenerate] after its [await]: [try] / [catch] / [finally]. *)
Definition handleGenerate_settled (r : GeneratedImage.t + Thrown)
           (s : Store.AppState) : Store.AppState :=
  Store.setGenerating false
    match r with
    | inl result => Store.addGeneratedImage result s
    | inr err =>
        Store.setGenerationError
          (Some match err with
                | ErrorObject message => message
                | OtherValue => "Generation failed"
                end) s
    end.

(** [canGenerate], as the truth value the button reads. *)
Definition canGenerate (p : PageState) (s : Store.AppState) : bool :=
  JS.nonEmpty (JS.trim (Store.currentPrompt s))
  && negb (Store.isGenerating s)
  && JS.truthy (Store.selectedModelId s)
  && (negb (isImg2img (mode p)) || negb (isNull (referenceImage p))).

(** The prompt and the model id a request carries. *)
Definition promptOf (c : ApiCall) : JS.jsstring :=
  match c with
  | generateImg2Img prompt _ _ => prompt
  | generateImage request => GenerationRequest.prompt request
  end.

Definition modelIdOf (c : ApiCall) : option string :=
  match c with
  | generateImg2Img _ _ options => model_id options
  | generateImage request => Some (GenerationRequest.model_id request)
  end.

(** *** The page as a transition system

    One client: the zustand store, the [useState] values of the page, the
    requests issued and not yet settled, and what the callbacks of the last
    render captured.  [handleGenerate] is a [useCallback] closure: its guard
    and its request read the [currentPrompt], [selectedModelId] and
    [isGenerating] and the page state of the render that created it, while
    the store actions it calls write the store of the moment.  A render is an
    event of its own, so two calls of the handler may or may not have one
    between them. *)

(** [handleGenerate] called as the callback of a render: [seenPage] and
    [seen] are what that render read, [live] is the store the actions
    write. *)
Definition handleGenerateFrom (seenPage : PageState)
           (seen live : Store.AppState)
  : Store.AppState * option ApiCall :=
  if negb (JS.nonEmpty (JS.trim (Store.currentPrompt seen)))
     || negb (JS.truthy (Store.selectedModelId seen))
     || Store.isGenerating seen
  then (live, None)
  else if isImg2img (mode seenPage) && isNull (referenceImage seenPage)
  then (live, None)
  else
    let live1 :=
      Store.setGenerationError None (Store.setGenerating true live) in
    let selectedModelId := narrowed (Store.selectedModelId seen) in
    (live1,
     Some
       match mode seenPage, referenceImage seenPage with
       | img2img, Some image =>
           generateImg2Img (Store.currentPrompt seen) image
             {| model_id := Some selectedModelId;
                num_inference_steps := Some (steps seenPage);
                image_strength := Some (imageStrength seenPage);
                img_seed := seedOf (seed seenPage) |}
       | _, _ =>
           generateImage
             {| GenerationRequest.prompt := Store.currentPrompt seen;
                GenerationRequest.model_id := selectedModelId;
                GenerationRequest.width := width seenPage;
                GenerationRequest.height := height seenPage;
                GenerationRequest.num_inference_steps := steps seenPage;
                GenerationRequest.guidance_scale := guidance seenPage;
                GenerationRequest.seed := seedOf (seed seenPage);
                GenerationRequest.negative_prompt :=
                  negativeOf (negativePrompt seenPage) |}
       end).

Record Client : Type := {
  store : Store.AppState;
  page : PageState;
  inFlight : list ApiCall;
  seenStore : Store.AppState;
  seenPage : PageState
}.

Inductive Event : Type :=
| Render
| Generate
| Settled (r : GeneratedImage.t + Thrown)
| SetPrompt (prompt : JS.jsstring)
| SelectModel (modelId : string)
| SetPage (p : PageState)
| Snapshot (ms : list Model.t)
| Push (message : WebSocketMessage).

Definition toList {A : Type} (o : option A) : list A :=
  match o with Some a => [a] | None => [] end.

(** The client with a new store, a new page state and new requests in
    flight; what the last render captured stays. *)
Definition update (c : Client) (s : Store.AppState) (p : PageState)
           (calls : list ApiCall) : Client :=
  {| store := s; page := p; inFlight := calls;
     seenStore := seenStore c; seenPage := seenPage c |}.

(** [None]: the event cannot happen (a promise settles only if it is
    pending).  A render makes new callbacks, which capture the store and
    the page state of the moment. *)
Definition step (e : Event) (c : Client) : option Client :=
  match e with
  | Render =>
      Some {| store := store c; page := page c; inFlight := inFlight c;
              seenStore := store c; seenPage := page c |}
  | Generate =>
      let r := handleGenerateFrom (seenPage c) (seenStore c) (store c) in
      Some (update c (fst r) (page c) (inFlight c ++ toList (snd r)))
  | Settled r =>
      match inFlight c with
      | [] => None
      | _ :: rest =>
          Some (update c (handleGenerate_settled r (store c)) (page c) rest)
      end
  | SetPrompt prompt =>
      Some (update c (Store.setCurrentPrompt prompt (store c)) (page c)
                   (inFlight c))
  | SelectModel modelId =>
      Some (update c (Store.setSelectedModel modelId (store c)) (page c)
                   (inFlight c))
  | SetPage p => Some (update c (store c) p (inFlight c))
  | Snapshot ms =>
      Some (update c (Store.setModels ms (store c)) (page c) (inFlight c))
  | Push message =>
      Some (update c (fst (App.handleWebSocketMessage message (store c)))
                   (page c) (inFlight c))
  end.

Fixpoint run (es : list Event) (c : Client) : option Client :=
  match es with
  | [] => Some c
  | e :: rest =>
      match step e c with
      | Some c' => run rest c'
      | None => None
      end
  end.

Definition start (p : PageState) : Client :=
  {| store := Store.initial; page := p; inFlight := [];
     seenStore := Store.initial; seenPage := p |}.

(** The events [es] with a render before each of them. *)
Definition renderEach (es : list Event) : list Event :=
  flat_map (fun e => [Render; e]) es.

(** The store [handleGenerate] leaves when it goes ahead. *)
Definition begun (s : Store.AppState) : Store.AppState :=
  Store.setGenerationError None (Store.setGenerating true s).

(** Idle with nothing in flight, or generating with exactly one request. *)
Definition guarded (cl : Client) : Prop :=
  match inFlight cl with
  | [] => Store.isGenerating (store cl) = false
  | [_] => Store.isGenerating (store cl) = true
  | _ => False
  end.

(** What a run leaves: the requests in flight and the flag. *)
Definition outcome (r : option Client) : option (list ApiCall * bool) :=
  option_map (fun cl => (inFlight cl, Store.isGenerating (store cl))) r.

End Page.

Arguments guarded {File}.

Arguments mode {File}.
Arguments referenceImage {File}.
Arguments store {File}.
Arguments page {File}.
Arguments inFlight {File}.
Arguments seenStore {File}.
Arguments seenPage {File}.
Arguments handleGenerate {File}.
Arguments handleGenerateFrom {File}.
Arguments canGenerate {File}.
Arguments promptOf {File}.
Arguments modelIdOf {File}.
Arguments step {File}.
Arguments run {File}.
Arguments start {File}.
Arguments renderEach {File}.
Arguments outcome {File}.
Arguments generateImage {File}.
Arguments generateImg2Img {File}.
Arguments Render {File}.
Arguments Generate {File}.
Arguments Settled {File}.
Arguments SetPrompt {File}.
Arguments SelectModel {File}.
Arguments SetPage {File}.
Arguments Snapshot {File}.
Arguments Push {File}.

End GeneratePage.

(** ** hooks/useWebSocket.ts *)

Module UseWebSocket.

(** [WebSocket.readyState] *)
Inductive ReadyState : Set := CONNECTING | OPEN | CLOSING | CLOSED.

(** The callbacks of the owner are read through refs at the time of the
    call, so a call is recorded by its name and argument. *)
Inductive Callback : Set :=
| onConnect
| onDisconnect
| onMessage (message : WebSocketMessage).

(** The refs and state of one use of the hook, and the browser objects they
    refer to: [sockets] holds the [readyState] of every [WebSocket]
    constructed so far ([wsRef] is an index into it), [timeouts] the pending
    timeouts with their handle and delay (the callback is always the
    reconnect closure), [sent] the frames handed to [ws.send]. Handles of
    [window.setTimeout] are positive integers, never reused. *)
Record Hook : Set := {
  mountedRef : bool;
  wsRef : option nat;
  reconnectTimeoutRef : option positive;
  isConnected : bool;
  connectionError : option string;
  sockets : list ReadyState;
  timeouts : list (positive * JS.number);
  nextHandle : positive;
  sent : list (nat * string);
  fired : list Callback
}.

Definition initial : Hook := {|
  mountedRef := true;
  wsRef := None;
  reconnectTimeoutRef := None;
  isConnected := false;
  connectionError := None;
  sockets := [];
  timeouts := [];
  nextHandle := 1%positive;
  sent := [];
  fired := []
|}.

Definition with_mountedRef (v : bool) (h : Hook) : Hook :=
  {| mountedRef := v; wsRef := wsRef h;
     reconnectTimeoutRef := reconnectTimeoutRef h;
     isConnected := isConnected h; connectionError := connectionError h;
     sockets := sockets h; timeouts := timeouts h;
     nextHandle := nextHandle h; sent := sent h; fired := fired h |}.

Definition with_wsRef (v : option nat) (h : Hook) : Hook :=
  {| mountedRef := mountedRef h; wsRef := v;
     reconnectTimeoutRef := reconnectTimeoutRef h;
     isConnected := isConnected h; connectionError := connectionError h;
     sockets := sockets h; timeouts := timeouts h;
     nextHandle := nextHandle h; sent := sent h; fired := fired h |}.

Definition with_reconnectTimeoutRef (v : option positive) (h : Hook) : Hook :=
  {| mountedRef := mountedRef h; wsRef := wsRef h;
     reconnectTimeoutRef := v;
     isConnected := isConnected h; connectionError := connectionError h;
     sockets := sockets h; timeouts := timeouts h;
     nextHandle := nextHandle h; sent := sent h; fired := fired h |}.

Definition setIsConnected (v : bool) (h : Hook) : Hook :=
  {| mountedRef := mountedRef h; wsRef := wsRef h;
     reconnectTimeoutRef := reconnectTimeoutRef h;
     isConnected := v; connectionError := connectionError h;
     sockets := sockets h; timeouts := timeouts h;
     nextHandle := nextHandle h; sent := sent h; fired := fired h |}.

Definition setConnectionError (v : option string) (h : Hook) : Hook :=
  {| mountedRef := mountedRef h; wsRef := wsRef h;
     reconnectTimeoutRef := reconnectTimeoutRef h;
     isConnected := isConnected h; connectionError := v;
     sockets := sockets h; timeouts := timeouts h;
     nextHandle := nextHandle h; sent := sent h; fired := fired h |}.

Definition with_sockets (v : list ReadyState) (h : Hook) : Hook :=
  {| mountedRef := mountedRef h; wsRef := wsRef h;
     reconnectTimeoutRef := reconnectTimeoutRef h;
     isConnected := isConnected h; connectionError := connectionError h;
     sockets := v; timeouts := timeouts h;
     nextHandle := nextHandle h; sent := sent h; fired := fired h |}.

Definition with_timeouts (v : list (positive * JS.number)) (n : positive)
           (h : Hook) : Hook :=
  {| mountedRef := mountedRef h; wsRef := wsRef h;
     reconnectTimeoutRef := reconnectTimeoutRef h;
     isConnected := isConnected h; connectionError := connectionError h;
     sockets := sockets h; timeouts := v;
     nextHandle := n; sent := sent h; fired := fired h |}.

Definition with_sent (v : list (nat * string)) (h : Hook) : Hook :=
  {| mountedRef := mountedRef h; wsRef := wsRef h;
     reconnectTimeoutRef := reconnectTimeoutRef h;
     isConnected := isConnected h; connectionError := connectionError h;
     sockets := sockets h; timeouts := timeouts h;
     nextHandle := nextHandle h; sent := v; fired := fired h |}.

Definition call (c : Callback) (h : Hook) : Hook :=
  {| mountedRef := mountedRef h; wsRef := wsRef h;
     reconnectTimeoutRef := reconnectTimeoutRef h;
     isConnected := isConnected h; connectionError := connectionError h;
     sockets := sockets h; timeouts := timeouts h;
     nextHandle := nextHandle h; sent := sent h; fired := fired h ++ [c] |}.

(** *** Browser primitives *)

(** The socket [k] with its [readyState] set to [r]. *)
Fixpoint setReadyState (k : nat) (r : ReadyState) (l : list ReadyState)
  : list ReadyState :=
  match l, k with
  | [], _ => []
  | _ :: rest, O => r :: rest
  | x :: rest, S k' => x :: setReadyState k' r rest
  end.

(** [wsRef.current?.readyState] *)
Definition readyState (h : Hook) : option ReadyState :=
  match wsRef h with
  | Some k => nth_error (sockets h) k
  | None => None
  end.

(** [window.setTimeout(callback, delay)]: a fresh handle, pending. *)
Definition setTimeout (delay : JS.number) (h : Hook) : positive * Hook :=
  (nextHandle h,
   with_timeouts (timeouts h ++ [(nextHandle h, delay)])
                 (Pos.succ (nextHandle h)) h).

(** [clearTimeout(handle)] *)
Definition clearTimeout (t : positive) (h : Hook) : Hook :=
  with_timeouts (filter (fun e => negb (Pos.eqb (fst e) t)) (timeouts h))
                (nextHandle h) h.

(** [ws.close(1000, reason)] on socket [k]: an open or connecting socket
    starts its closing handshake, a closing or closed one is left alone. *)
Definition closeSocket (k : nat) (h : Hook) : Hook :=
  match nth_error (sockets h) k with
  | Some CONNECTING | Some OPEN =>
      with_sockets (setReadyState k CLOSING (sockets h)) h
  | _ => h
  end.

Definition pending (t : positive) (h : Hook) : bool :=
  existsb (fun e => Pos.eqb (fst e) t) (timeouts h).

Section Hook.

(** [options.reconnectInterval], and whether [new WebSocket(url)] returns
    for the url of the hook (it throws on a malformed one). *)
Variable reconnectIntervalOption : option JS.number.
Variable urlAccepted : bool.

(** [const { reconnectInterval = 3000 } = options] *)
Definition reconnectInterval : JS.number :=
  match reconnectIntervalOption with
  | Some v => v
  | None => 3000%float
  end.

(** [connect] *)
Definition connect (h : Hook) : Hook :=
  if negb (mountedRef h) then h
  else
    match readyState h with
    | Some OPEN | Some CONNECTING => h
    | _ =>
        if urlAccepted
        then with_wsRef (Some (List.length (sockets h)))
                        (with_sockets (sockets h ++ [CONNECTING]) h)
        else setConnectionError
               (Some "Failed to create WebSocket connection") h
    end.

(** [ws.onopen] *)
Definition onopen (h : Hook) : Hook :=
  if negb (mountedRef h) then h
  else call onConnect (setConnectionError None (setIsConnected true h)).

(** [ws.onclose], on the close event with code [code]. *)
Definition onclose (code : N) (h : Hook) : Hook :=
  if negb (mountedRef h) then h
  else
    let h1 := call onDisconnect (with_wsRef None (setIsConnected false h)) in
    if negb (code =? 1000)%N && mountedRef h1
    then
      let (t, h2) := setTimeout reconnectInterval h1 in
      with_reconnectTimeoutRef (Some t) h2
    else h1.

(** [ws.onerror] *)
Definition onerror (h : Hook) : Hook :=
  setConnectionError (Some "Failed to connect to server") h.

(** [ws.onmessage]: [frame] is the result of [JSON.parse], [None] when it
    throws. *)
Definition onmessage (frame : option WebSocketMessage) (h : Hook) : Hook :=
  match frame with
  | Some message => call (onMessage message) h
  | None => h
  end.

(** The callback given to [setTimeout]. *)
Definition reconnectCallback (h : Hook) : Hook :=
  if mountedRef h then connect h else h.

(** [disconnect] *)
Definition disconnect (h : Hook) : Hook :=
  let h1 :=
    match reconnectTimeoutRef h with
    | Some t => with_reconnectTimeoutRef None (clearTimeout t h)
    | None => h
    end in
  match wsRef h1 with
  | Some k => with_wsRef None (closeSocket k h1)
  | None => h1
  end.

(** [send]; [message] is the text [JSON.stringify] produces. *)
Definition send (message : string) (h : Hook) : Hook :=
  match wsRef h, readyState h with
  | Some k, Some OPEN => with_sent (sent h ++ [(k, message)]) h
  | _, _ => h
  end.

(** The effect of the hook and its cleanup. *)
Definition mount (h : Hook) : Hook := connect (with_mountedRef true h).

Definition unmount (h : Hook) : Hook := disconnect (with_mountedRef false h).

(** *** The hook as a transition system

    The browser changes the [readyState] of a socket and then runs its
    handler; a timeout runs once, when it is pending. *)
Inductive Event : Set :=
| Mount
| Unmount
| Reconnect
| Open (k : nat)
| Close (k : nat) (code : N)
| Error (k : nat)
| Message (k : nat) (frame : option WebSocketMessage)
| Timeout (t : positive)
| Send (message : string).

Definition step (e : Event) (h : Hook) : Hook :=
  match e with
  | Mount => mount h
  | Unmount => unmount h
  | Reconnect => connect h
  | Open k => onopen (with_sockets (setReadyState k OPEN (sockets h)) h)
  | Close k code =>
      onclose code (with_sockets (setReadyState k CLOSED (sockets h)) h)
  | Error _ => onerror h
  | Message _ frame => onmessage frame h
  | Timeout t =>
      if pending t h then reconnectCallback (clearTimeout t h) else h
  | Send message => send message h
  end.

Definition run (es : list Event) (h : Hook) : Hook :=
  fold_left (fun acc e => step e acc) es h.

(** The handles of the pending timeouts. *)
Definition handles (h : Hook) : list positive := map fst (timeouts h).

(** A close event with a code other than the normal closure 1000. *)
Definition ungraceful (e : Event) : bool :=
  match e with
  | Close _ code => negb (code =? 1000)%N
  | _ => false
  end.

End Hook.

End UseWebSocket.

(** ** The conflict rule and the selection order of the design notes *)

(** Modelled from the spec: the rank table of section 4.2 of the design
    notes, which the source does not have.  [error] has no rank. *)
Definition rank (st : ModelState) : option nat :=
  match st with
  | not_downloaded => Some 0
  | downloading => Some 1
  | downloaded => Some 2
  | loading => Some 3
  | ready => Some 4
  | error => None
  end.

(** [older u c]: [u] is a state strictly older than [c] in that table. *)
Definition older (u c : ModelState) : bool :=
  match rank u, rank c with
  | Some a, Some b => Nat.ltb a b
  | _, _ => false
  end.

(** The selection order as section 4.3 of the design notes words it, a
    function of the registry alone: the first ready record, else the first
    downloaded one, else the first record.  [Store.setModels] is compared
    with it below. *)
Definition priorityChoice (ms : list Model.t) : option string :=
  match Store.findState ready ms with
  | Some m => Some (Model.id m)
  | None =>
      match Store.findState downloaded ms with
      | Some m => Some (Model.id m)
      | None =>
          match ms with
          | m :: _ => Some (Model.id m)
          | [] => None
          end
      end
  end.

(** A push update as the arguments of [updateModelStatus]. *)
Definition Update : Set :=
  (ModelState * option DownloadProgress * option string)%type.

Definition applyUpdate (modelId : string) (s : Store.AppState) (u : Update)
  : Store.AppState :=
  let '(st, progress, err) := u in
  Store.updateModelStatus modelId st progress err s.

Definition applyUpdates (modelId : string) (us : list Update)
           (s : Store.AppState) : Store.AppState :=
  fold_left (applyUpdate modelId) us s.

(** ** Sample data *)

Definition sampleModel (i : string) (st : ModelState)
           (p : option DownloadProgress) (e : option string) : Model.t :=
  {| Model.id := i;
     Model.name := "Z-Image Turbo";
     Model.description := "4-bit";
     Model.recommended_steps := 8%float;
     Model.recommended_guidance := 0%float;
     Model.size_gb := 6%float;
     Model.state := st;
     Model.progress := p;
     Model.error := e;
     Model.is_current := false |}.

Definition halfway : DownloadProgress :=
  {| total_size := 6000%float;
     downloaded_size := 3000%float;
     current_file := "weights/0.safetensors";
     files_completed := 1%float;
     total_files := 4%float;
     speed := 100%float;
     eta := 30%float;
     percent := 50%float |}.

Definition registryOf (ms : list Model.t) : Store.AppState :=
  Store.with_models ms Store.initial.

(** A page in text mode with the default settings (the strength is the
    double nearest to 0.7), and a store with a prompt and a selected model. *)
Definition samplePage : GeneratePage.PageState unit :=
  {| GeneratePage.mode := GeneratePage.txt2img;
     GeneratePage.width := 1024%float;
     GeneratePage.height := 1024%float;
     GeneratePage.steps := 8%float;
     GeneratePage.guidance := 0%float;
     GeneratePage.seed := "";
     GeneratePage.negativePrompt := "";
     GeneratePage.referenceImage := None;
     GeneratePage.imageStrength := 0x1.6666666666666p-1%float |}.

Definition sampleStore (prompt : string) : Store.AppState :=
  Store.setCurrentPrompt (JS.lit prompt)
    (Store.setSelectedModel "m1" Store.initial).

Definition noParse (_ : string) : JS.number := 0%float.

(** The request [handleGenerate] builds from [samplePage] and
    [sampleStore prompt]. *)
Definition sampleCall (prompt : string) : GeneratePage.ApiCall unit :=
  GeneratePage.generateImage
    {| GenerationRequest.prompt := JS.lit prompt;
       GenerationRequest.model_id := "m1";
       GenerationRequest.width := 1024%float;
       GenerationRequest.height := 1024%float;
       GenerationRequest.num_inference_steps := 8%float;
       GenerationRequest.guidance_scale := 0%float;
       GenerationRequest.seed := None;
       GenerationRequest.negative_prompt := None |}.

(** A session of the hook with the default options: mounted, the socket
    constructed and opened. *)
Definition connected : UseWebSocket.Hook :=
  UseWebSocket.run None true
    [UseWebSocket.Mount; UseWebSocket.Open 0] UseWebSocket.initial.

(** ** api.ts *)

Module Api.

(** An [Error] object, as [api.request], [fetch] and [response.json()]
    throw them: [new Error(m)] has the name Error, a failed [fetch] is a
    TypeError, a body that is not JSON a SyntaxError. *)
Record JsError : Set := {
  errName : string;
  errMessage : string
}.

(** [new Error(message)] *)
Definition newError (message : string) : JsError :=
  {| errName := "Error"; errMessage := message |}.

(** [String(err)], that is [Error.prototype.toString]. *)
Definition toString (e : JsError) : string :=
  if errName e =? "" then errMessage e
  else if errMessage e =? "" then errName e
  else errName e ++ ": " ++ errMessage e.

(** What [handleGenerate] catches when an api call rejects. *)
Definition thrown (e : JsError) : GeneratePage.Thrown :=
  GeneratePage.ErrorObject (errMessage e).

(** The settled promise of an api call, as the [await] of a caller with a
    [catch] sees it. *)
Definition awaited {T : Type} (r : T + JsError) : T + GeneratePage.Thrown :=
  match r with
  | inl v => inl v
  | inr e => inr (thrown e)
  end.

(** [s] without [pat] at its start, when it starts with [pat]. *)
Fixpoint stripPrefix (pat s : string) : option string :=
  match pat, s with
  | EmptyString, _ => Some s
  | String _ _, EmptyString => None
  | String a pat', String b s' =>
      if Ascii.eqb a b then stripPrefix pat' s' else None
  end.

(** [s.replace(pat, rep)] for a string pattern and a replacement without
    dollar sign: the first occurrence of [pat] is replaced. *)
Fixpoint replace (pat rep s : string) : string :=
  match stripPrefix pat s with
  | Some rest => rep ++ rest
  | None =>
      match s with
      | EmptyString => EmptyString
      | String c r => String c (replace pat rep r)
      end
  end.

(** Whether [pat] occurs in [s]. *)
Fixpoint occurs (pat s : string) : bool :=
  match stripPrefix pat s with
  | Some _ => true
  | None =>
      match s with
      | EmptyString => false
      | String _ r => occurs pat r
      end
  end.

Definition API_BASE : string := "http://localhost:8000".

(** [getWebSocketUrl] *)
Definition getWebSocketUrl (baseUrl : string) : string :=
  let wsBase := replace "http" "ws" baseUrl in
  wsBase ++ "/ws".

(** [getImageUrl] *)
Definition getImageUrl (baseUrl imageId : string) : string :=
  baseUrl ++ "/api/images/" ++ imageId.

(** The [detail] property of an error body, as [error.detail || ...] and
    [new Error(...)] see it: whether it is truthy, and the string it converts
    to.  A missing or empty detail is falsy. *)
Inductive Detail : Set :=
| falsyDetail
| truthyDetail (text : string).

(** A parsed JSON body, with the value [request<T>] returns it as: the
    body [null], which has no properties, or any other value with its
    [detail] property. *)
Inductive Json (T : Type) : Type :=
| nullBody (asT : T)
| valueBody (asT : T) (detail : Detail).

Arguments nullBody {T}.
Arguments valueBody {T}.

Definition asT {T : Type} (body : Json T) : T :=
  match body with
  | nullBody v => v
  | valueBody v _ => v
  end.

(** A response of [fetch]: the status, and what [response.json()] settles
    to, a parsed body or the error it rejects with. *)
Record Response (T : Type) : Type := {
  status : nat;
  json : Json T + JsError
}.

Arguments status {T}.
Arguments json {T}.

(** [response.ok]: the status is in the range 200 to 299. *)
Definition ok {T : Type} (r : Response T) : bool :=
  (200 <=? status r)%nat && (status r <=? 299)%nat.

(** The decimal digits of a status code. *)
Definition decimal (n : nat) : string :=
  DecimalString.NilEmpty.string_of_uint (Nat.to_uint n).

Section Request.

(** The message of the TypeError the engine throws when [detail] is read
    from [null]; its wording is the engine's. *)
Variable nullReadMessage : string.

Definition nullRead : JsError :=
  {| errName := "TypeError"; errMessage := nullReadMessage |}.

(** [request] after [fetch] settled, with the error [fetch] rejected with or
    its response: the value returned, or the error thrown.  The same lines
    end [generateImg2Img]. *)
Definition request {T : Type} (fetched : JsError + Response T) : T + JsError :=
  match fetched with
  | inl e => inr e
  | inr response =>
      if negb (ok response)
      then
        match json response with
        | inl (nullBody _) => inr nullRead
        | inl (valueBody _ (truthyDetail text)) => inr (newError text)
        | inl (valueBody _ falsyDetail) =>
            inr (newError ("HTTP " ++ decimal (status response)))
        | inr _ => inr (newError "Unknown error")
        end
      else
        match json response with
        | inl body => inl (asT body)
        | inr e => inr e
        end
  end.

End Request.

Arguments request nullReadMessage {T}.

Section FormData.

Variable File : Type.

(** [n.toString()] is taken as given, and so is the conversion to a
    USVString on the plain strings (ids and the digits of numbers). *)
Variable numberToString : JS.number -> string.
Variable toUSV : string -> string.

(** A value appended to a [FormData]. *)
Inductive FormValue : Type :=
| textValue (s : string)
| unitsValue (s : JS.jsstring)
| fileValue (f : File).

(** The form [generateImg2Img] builds, in the order of its [append]s; each
    string goes through the conversion of [FormData.append]. *)
Definition img2imgForm (prompt : JS.jsstring) (image : File)
           (options : GeneratePage.Img2ImgOptions)
  : list (string * FormValue) :=
  [("prompt", unitsValue (JS.toUSVString prompt)); ("image", fileValue image)]
  ++ (if JS.truthy (GeneratePage.model_id options)
      then [("model_id",
             textValue
               (toUSV (GeneratePage.narrowed (GeneratePage.model_id options))))]
      else [])
  ++ match GeneratePage.num_inference_steps options with
     | Some n =>
         [("num_inference_steps", textValue (toUSV (numberToString n)))]
     | None => []
     end
  ++ match GeneratePage.image_strength options with
     | Some n => [("image_strength", textValue (toUSV (numberToString n)))]
     | None => []
     end
  ++ match GeneratePage.img_seed options with
     | Some n => [("seed", textValue (toUSV (numberToString n)))]
     | None => []
     end.

(** The form a request of the page posts, if it posts one: only
    [generateImg2Img] does, [generateImage] posts JSON. *)
Definition formOf (c : GeneratePage.ApiCall File)
  : option (list (string * FormValue)) :=
  match c with
  | GeneratePage.generateImg2Img prompt image options =>
      Some (img2imgForm prompt image options)
  | GeneratePage.generateImage _ => None
  end.

End FormData.

Arguments textValue {File}.
Arguments unitsValue {File}.
Arguments fileValue {File}.
Arguments img2imgForm {File}.
Arguments formOf {File}.

End Api.

(** ** components/GeneratePage.tsx, the other handlers *)

Module GeneratePageHandlers.

(** The fields of a [React.KeyboardEvent] that [handleKeyDown] reads. *)
Record KeyboardEvent : Set := {
  key : string;
  metaKey : bool;
  ctrlKey : bool
}.

Section Handlers.

Variable File : Type.
Variable parseInt : string -> JS.number.

(** [handleKeyDown] *)
Definition handleKeyDown (e : KeyboardEvent)
           (p : GeneratePage.PageState File) (s : Store.AppState)
  : Store.AppState * option (GeneratePage.ApiCall File) :=
  if (key e =? "Enter") && (metaKey e || ctrlKey e)
  then GeneratePage.handleGenerate parseInt p s
  else (s, None).

(** [setReferenceImage] *)
Definition setReferenceImage (f : option File)
           (p : GeneratePage.PageState File) : GeneratePage.PageState File :=
  {| GeneratePage.mode := GeneratePage.mode p;
     GeneratePage.width := GeneratePage.width File p;
     GeneratePage.height := GeneratePage.height File p;
     GeneratePage.steps := GeneratePage.steps File p;
     GeneratePage.guidance := GeneratePage.guidance File p;
     GeneratePage.seed := GeneratePage.seed File p;
     GeneratePage.negativePrompt := GeneratePage.negativePrompt File p;
     GeneratePage.referenceImage := f;
     GeneratePage.imageStrength := GeneratePage.imageStrength File p |}.

(** [setMode] *)
Definition setMode (m : GeneratePage.GenerationMode)
           (p : GeneratePage.PageState File) : GeneratePage.PageState File :=
  {| GeneratePage.mode := m;
     GeneratePage.width := GeneratePage.width File p;
     GeneratePage.height := GeneratePage.height File p;
     GeneratePage.steps := GeneratePage.steps File p;
     GeneratePage.guidance := GeneratePage.guidance File p;
     GeneratePage.seed := GeneratePage.seed File p;
     GeneratePage.negativePrompt := GeneratePage.negativePrompt File p;
     GeneratePage.referenceImage := GeneratePage.referenceImage p;
     GeneratePage.imageStrength := GeneratePage.imageStrength File p |}.

(** The page state with the preview of the reference image and the value of
    the file input ([None] while the input is not rendered, that is
    [fileInputRef.current] is null). *)
Record Reference : Type := {
  pageState : GeneratePage.PageState File;
  referencePreview : option string;
  fileInput : option string
}.

(** [handleImageSelect] up to [reader.readAsDataURL]: [files] is
    [e.target.files], and the result is the new state and the file handed
    to the reader. *)
Definition handleImageSelect (files : list File) (r : Reference)
  : Reference * option File :=
  match hd_error files with
  | Some file =>
      ({| pageState := setReferenceImage (Some file) (pageState r);
          referencePreview := referencePreview r;
          fileInput := fileInput r |},
       Some file)
  | None => (r, None)
  end.

(** [reader.onload] *)
Definition readerOnload (result : string) (r : Reference) : Reference :=
  {| pageState := pageState r;
     referencePreview := Some result;
     fileInput := fileInput r |}.

(** [handleRemoveReference] *)
Definition handleRemoveReference (r : Reference) : Reference :=
  {| pageState := setReferenceImage None (pageState r);
     referencePreview := None;
     fileInput := option_map (fun _ => "") (fileInput r) |}.

End Handlers.

Arguments handleKeyDown {File}.
Arguments setReferenceImage {File}.
Arguments setMode {File}.
Arguments pageState {File}.
Arguments referencePreview {File}.
Arguments fileInput {File}.
Arguments handleImageSelect {File}.
Arguments readerOnload {File}.
Arguments handleRemoveReference {File}.

(** [models.find((m) => m.id === selectedModelId)] *)
Definition selectedModel (s : Store.AppState) : option Model.t :=
  match Store.selectedModelId s with
  | Some i => find (fun m => Model.id m =? i) (Store.models s)
  | None => None
  end.

(** [models.filter((m) => m.state === "ready")], the entries of the model
    menu. *)
Definition readyModels (s : Store.AppState) : list Model.t :=
  filter (fun m => ModelState_eqb (Model.state m) ready) (Store.models s).

End GeneratePageHandlers.

(** ** components/InitPage.tsx *)

Module InitPage.

(** What the action row of a [ModelCard] can hold. *)
Inductive Action : Set :=
| downloadButton
| loadButton
| readyBadge
| busyBadge (isDownloading : bool)
| retryButton.

Definition when {A : Type} (c : bool) (a : A) : list A :=
  if c then [a] else [].

(** The action row: one conditional element after the other. *)
Definition actions (model : Model.t) : list Action :=
  let isDownloading := ModelState_eqb (Model.state model) downloading in
  let isLoading := ModelState_eqb (Model.state model) loading in
  let isReady := ModelState_eqb (Model.state model) ready in
  let isDownloaded := ModelState_eqb (Model.state model) downloaded in
  let hasError := ModelState_eqb (Model.state model) error in
  when (ModelState_eqb (Model.state model) not_downloaded) downloadButton
  ++ when isDownloaded loadButton
  ++ when isReady readyBadge
  ++ when (isDownloading || isLoading) (busyBadge isDownloading)
  ++ when hasError retryButton.

(** What a click on an action starts: [onDownload] and [onLoad] are
    [downloadModel(model.id)] and [loadModel(model.id)]. *)
Inductive Started : Set :=
| startDownload (modelId : string)
| startLoad (modelId : string).

Definition onClick (model : Model.t) (a : Action) : option Started :=
  match a with
  | downloadButton | retryButton => Some (startDownload (Model.id model))
  | loadButton => Some (startLoad (Model.id model))
  | readyBadge | busyBadge _ => None
  end.

(** The progress bar, shown under [isDownloading && progress]. *)
Definition progressBar (model : Model.t) : option DownloadProgress :=
  if ModelState_eqb (Model.state model) downloading
  then Model.progress model
  else None.

(** The error box, shown under [hasError && model.error], with its text. *)
Definition errorBox (model : Model.t) : option string :=
  if ModelState_eqb (Model.state model) error
     && JS.truthy (Model.error model)
  then Model.error model
  else None.

(** [models.some((m) => m.state === "ready")], the condition of the
    button to the generate page. *)
Definition hasReadyModel (s : Store.AppState) : bool :=
  existsb (fun m => ModelState_eqb (Model.state m) ready) (Store.models s).

End InitPage.

(** A page in image mode with a reference image. *)
Definition samplePageImg : GeneratePage.PageState unit :=
  GeneratePageHandlers.setMode
    GeneratePage.img2img
    (GeneratePageHandlers.setReferenceImage (Some tt) samplePage).

Definition sampleReference : GeneratePageHandlers.Reference unit :=
  {| GeneratePageHandlers.pageState := samplePageImg;
     GeneratePageHandlers.referencePreview := Some "data:image/png;base64,AA";
     GeneratePageHandlers.fileInput := Some "cat.png" |}.

Definition noText (_ : JS.number) : string := "0".

(** ** Sessions of the hook *)

(** An event that names a socket names one that was constructed. *)
Definition wellFormed (e : UseWebSocket.Event) (h : UseWebSocket.Hook) : bool :=
  match e with
  | UseWebSocket.Open k
  | UseWebSocket.Close k _
  | UseWebSocket.Error k
  | UseWebSocket.Message k _ =>
      Nat.ltb k (List.length (UseWebSocket.sockets h))
  | _ => true
  end.

Fixpoint wellFormedRun (interval : option JS.number) (urlAccepted : bool)
         (es : list UseWebSocket.Event) (h : UseWebSocket.Hook) : bool :=
  match es with
  | [] => true
  | e :: rest =>
      wellFormed e h
      && wellFormedRun interval urlAccepted rest
                       (UseWebSocket.step interval urlAccepted e h)
  end.

(** The frames of a list that parse. *)
Definition parsedFrames (frames : list (option WebSocketMessage))
  : list WebSocketMessage :=
  flat_map (fun f => match f with Some m => [m] | None => [] end) frames.

(** * Properties *)

(** ** JavaScript values *)

Lemma nullish_idem {A : Type} (a b : option A) : a ?? (a ?? b) = a ?? b.
Proof. destruct a; reflexivity. Qed.

Lemma nullish_populated {A : Type} (a b : option A) :
  b <> None -> a ?? b <> None.
Proof. destruct a; simpl; [discriminate | trivial]. Qed.

Lemma trimStart_head (s : JS.jsstring) (c : N) (r : JS.jsstring) :
  JS.trimStart s = c :: r -> JS.isWhiteSpace c = false.
Proof.
  induction s as [|d s IH]; simpl; [discriminate|].
  destruct (JS.isWhiteSpace d) eqn:Hd; [exact IH|].
  intros H; injection H as -> _; exact Hd.
Qed.

Lemma trimStart_nil (s : JS.jsstring) :
  JS.trimStart s = [] <-> JS.whitespaceOnly s = true.
Proof.
  unfold JS.whitespaceOnly; induction s as [|d s IH]; simpl.
  - split; reflexivity.
  - destruct (JS.isWhiteSpace d); simpl; [exact IH|].
    split; discriminate.
Qed.

(** [s.trim()] is the empty string exactly when [s] is empty or made of
    white space only. *)
Lemma trim_nil (s : JS.jsstring) :
  JS.trim s = [] <-> JS.whitespaceOnly s = true.
Proof.
  unfold JS.trim, JS.trimEnd; split.
  - intros H.
    assert (Hr : JS.trimStart (rev (JS.trimStart s)) = []).
    { apply (f_equal (@rev N)) in H; rewrite rev_involutive in H; exact H. }
    apply trimStart_nil in Hr; unfold JS.whitespaceOnly in Hr.
    destruct (JS.trimStart s) as [|c r] eqn:Hs; [apply trimStart_nil; exact Hs|].
    apply trimStart_head in Hs.
    rewrite forallb_forall in Hr.
    rewrite (Hr c) in Hs; [discriminate|].
    apply in_rev; rewrite rev_involutive; left; reflexivity.
  - intros H; apply trimStart_nil in H; rewrite H; reflexivity.
Qed.

Lemma nonEmpty_trim (s : JS.jsstring) :
  JS.nonEmpty (JS.trim s) = negb (JS.whitespaceOnly s).
Proof.
  destruct (JS.whitespaceOnly s) eqn:Hw.
  - apply trim_nil in Hw; rewrite Hw; reflexivity.
  - destruct (JS.trim s) eqn:Ht; [|reflexivity].
    apply trim_nil in Ht; congruence.
Qed.

(** ** The registry *)

Lemma ModelState_eqb_eq (a b : ModelState) :
  ModelState_eqb a b = true <-> a = b.
Proof. destruct a, b; simpl; split; congruence. Qed.

Lemma merged_id m st p e : Model.id (Store.merged m st p e) = Model.id m.
Proof. reflexivity. Qed.

Lemma merged_idem m st p e :
  Store.merged (Store.merged m st p e) st p e = Store.merged m st p e.
Proof. unfold Store.merged; simpl; rewrite !nullish_idem; reflexivity. Qed.

Lemma updateModels_ids modelId st p e ms :
  map Model.id (Store.updateModels modelId st p e ms) = map Model.id ms.
Proof.
  unfold Store.updateModels; rewrite map_map; apply map_ext.
  intros m; destruct (Model.id m =? modelId); reflexivity.
Qed.

Lemma updateModels_nth modelId st p e ms k :
  nth_error (Store.updateModels modelId st p e ms) k =
  option_map
    (fun m => if Model.id m =? modelId then Store.merged m st p e else m)
    (nth_error ms k).
Proof. unfold Store.updateModels; apply nth_error_map. Qed.

Lemma updateModels_unknown modelId st p e ms :
  ~ In modelId (map Model.id ms) ->
  Store.updateModels modelId st p e ms = ms.
Proof.
  unfold Store.updateModels; induction ms as [|m ms IH]; simpl; intros H.
  - reflexivity.
  - destruct (String.eqb_spec (Model.id m) modelId) as [Heq|Hne].
    + exfalso; apply H; left; exact Heq.
    + rewrite IH; [reflexivity | intros Hin; apply H; right; exact Hin].
Qed.

Lemma with_models_same (s : Store.AppState) :
  Store.with_models (Store.models s) s = s.
Proof. destruct s; reflexivity. Qed.

(** A sequence of updates to one id keeps a record of that id where it is. *)
Lemma applyUpdates_position modelId (us : list Update) :
  forall s k m,
    nth_error (Store.models s) k = Some m ->
    Model.id m = modelId ->
    exists m1,
      nth_error (Store.models (applyUpdates modelId us s)) k = Some m1
      /\ Model.id m1 = modelId.
Proof.
  unfold applyUpdates.
  induction us as [|[[st0 p0] e0] us IH]; simpl; intros s k m Hk Hid.
  - exists m; split; assumption.
  - eapply IH with (m := Store.merged m st0 p0 e0);
      [|rewrite merged_id; exact Hid].
    simpl; rewrite updateModels_nth, Hk; simpl.
    rewrite Hid, String.eqb_refl; reflexivity.
Qed.

(** The record at position [k] after a sequence of updates to its id: its
    state is the state of the last update. *)
Lemma applyUpdates_last modelId (us : list Update) st p e s k m :
  nth_error (Store.models s) k = Some m ->
  Model.id m = modelId ->
  exists m',
    nth_error (Store.models (applyUpdates modelId (us ++ [(st, p, e)]) s)) k
    = Some m'
    /\ Model.id m' = modelId
    /\ Model.state m' = st.
Proof.
  intros Hk Hid.
  destruct (applyUpdates_position modelId us s k m Hk Hid) as [m1 [Hk1 Hid1]].
  unfold applyUpdates in *; rewrite fold_left_app.
  remember (fold_left (applyUpdate modelId) us s) as s1 eqn:Hs1 in *.
  exists (Store.merged m1 st p e); repeat split; [|exact Hid1].
  cbn [fold_left applyUpdate Store.updateModelStatus Store.with_models
       Store.models].
  rewrite updateModels_nth, Hk1; simpl.
  rewrite Hid1, String.eqb_refl; reflexivity.
Qed.

(** C1: [updateModelStatus] writes the incoming state into every record of
    the given id, whatever state the record is in, so after any sequence of
    updates to one id the state is that of the last update (last writer wins
    by arrival, the rank can go down).  The progress of the record is the
    progress of the update when it has one and the old progress otherwise:
    a record with progress keeps progress populated under every update. *)
Theorem updateModelStatus_last_writer_wins
        (modelId : string) (s : Store.AppState) (k : nat) (m : Model.t) :
  nth_error (Store.models s) k = Some m ->
  Model.id m = modelId ->
  (forall st p e,
      exists m',
        nth_error (Store.models (Store.updateModelStatus modelId st p e s)) k
        = Some m'
        /\ Model.state m' = st
        /\ Model.progress m' = p ?? Model.progress m
        /\ (Model.progress m <> None -> Model.progress m' <> None))
  /\ (forall (us : list Update) st p e,
         exists m',
           nth_error
             (Store.models (applyUpdates modelId (us ++ [(st, p, e)]) s)) k
           = Some m'
           /\ Model.state m' = st).
Proof.
  intros Hk Hid; split.
  - intros st p e; exists (Store.merged m st p e).
    simpl; rewrite updateModels_nth, Hk; simpl.
    rewrite Hid, String.eqb_refl.
    repeat split; apply nullish_populated.
  - intros us st p e.
    destruct (applyUpdates_last modelId us st p e s k m Hk Hid)
      as [m' [Hk' [_ Hst]]].
    exists m'; split; assumption.
Qed.

Lemma updateModelStatus_last_writer_wins_witness :
  let m := sampleModel "m1" downloading (Some halfway) None in
  let s := registryOf [m] in
  exists m',
    nth_error
      (Store.models (Store.updateModelStatus "m1" not_downloaded None None s))
      0 = Some m'
    /\ Model.state m' = not_downloaded
    /\ Model.progress m' = None ?? Model.progress m
    /\ (Model.progress m <> None -> Model.progress m' <> None).
Proof.
  intros m s.
  exact (proj1 (updateModelStatus_last_writer_wins
                  "m1" s 0 m eq_refl eq_refl)
               not_downloaded None None).
Defined.

(** C1 as stated fails: a record in [ready] that receives a [downloading]
    update, a state four ranks older, ends in [downloading]. *)
Lemma stale_update_overwrites_state :
  let c := sampleModel "m1" ready None None in
  let s' := Store.updateModelStatus "m1" downloading None None
                                    (registryOf [c]) in
  older downloading (Model.state c) = true
  /\ Store.models s' = [sampleModel "m1" downloading None None]
  /\ map Model.state (Store.models s') <> [Model.state c].
Proof. repeat split; discriminate. Qed.

(** C2: a record in [error] that receives a non-error [model_status]
    message takes the state of the message; its error message is the one of
    the message when it carries one and the old message otherwise, and the
    same for its progress. *)
Theorem recovery_sets_state_keeps_error
        (modelId : string) (st : ModelState) (p : option DownloadProgress)
        (e : option string) (s : Store.AppState) (k : nat) (m : Model.t) :
  nth_error (Store.models s) k = Some m ->
  Model.id m = modelId ->
  Model.state m = error ->
  st <> error ->
  exists m',
    nth_error
      (Store.models
         (fst (App.handleWebSocketMessage (model_status modelId st p e) s))) k
    = Some m'
    /\ Model.state m' = st
    /\ Model.error m' = e ?? Model.error m
    /\ Model.progress m' = p ?? Model.progress m.
Proof.
  intros Hk Hid _ _; exists (Store.merged m st p e).
  simpl; rewrite updateModels_nth, Hk; simpl.
  rewrite Hid, String.eqb_refl; repeat split.
Qed.

Lemma recovery_sets_state_keeps_error_witness :
  let m := sampleModel "m3" error None (Some "boom") in
  exists m',
    nth_error
      (Store.models
         (fst (App.handleWebSocketMessage
                 (model_status "m3" downloading (Some halfway) None)
                 (registryOf [m])))) 0
    = Some m'
    /\ Model.state m' = downloading
    /\ Model.error m' = None ?? Model.error m
    /\ Model.progress m' = Some halfway ?? Model.progress m.
Proof.
  intros m.
  apply (recovery_sets_state_keeps_error
           "m3" downloading (Some halfway) None (registryOf [m]) 0 m);
    [reflexivity | reflexivity | reflexivity | discriminate].
Defined.

(** C2 as stated fails: an [error] message for m3 with the text boom, then
    a [downloading] message for m3 with [error: null], leaves m3 in
    [downloading] with its error message still boom. *)
Lemma recovery_keeps_error_message :
  let s0 := registryOf [sampleModel "m3" downloading (Some halfway) None] in
  let s' := App.deliver
              [model_status "m3" error None (Some "boom");
               model_status "m3" downloading (Some halfway) None] s0 in
  map Model.state (Store.models s') = [downloading]
  /\ map Model.error (Store.models s') = [Some "boom"]
  /\ map Model.error (Store.models s') <> [None].
Proof. repeat split; discriminate. Qed.

(** C3: a snapshot replaces the registry: after [setModels] the registry is
    the list of the snapshot, so a record the client knew whose id the
    snapshot does not list is gone.  A fetch that fails changes nothing. *)
Theorem snapshot_replaces_registry (ms : list Model.t) (s : Store.AppState) :
  Store.models (Store.fetchModels_settled (Some ms) s) = ms
  /\ Store.fetchModels_settled None s = s
  /\ (forall m,
         In m (Store.models s) ->
         ~ In (Model.id m) (map Model.id ms) ->
         ~ In (Model.id m)
           (map Model.id
                (Store.models (Store.fetchModels_settled (Some ms) s)))).
Proof.
  repeat split; intros m _ Hout; exact Hout.
Qed.

Lemma snapshot_replaces_registry_witness :
  let m1 := sampleModel "m1" ready None None in
  let m2 := sampleModel "m2" not_downloaded None None in
  ~ In (Model.id m1)
    (map Model.id
         (Store.models
            (Store.fetchModels_settled (Some [m2]) (registryOf [m1])))).
Proof.
  intros m1 m2.
  apply (proj2 (proj2 (snapshot_replaces_registry [m2] (registryOf [m1])))).
  - left; reflexivity.
  - simpl; intros [H | []]; discriminate.
Defined.

(** C3 as stated fails: the registry holds m1, the snapshot lists m2 only,
    and afterwards the registry holds no record of m1. *)
Lemma snapshot_drops_absent_record :
  let s := registryOf [sampleModel "m1" ready None None] in
  let s' := Store.fetchModels_settled
              (Some [sampleModel "m2" not_downloaded None None]) s in
  In "m1" (map Model.id (Store.models s))
  /\ Store.models s' = [sampleModel "m2" not_downloaded None None]
  /\ ~ In "m1" (map Model.id (Store.models s')).
Proof.
  repeat split; [left; reflexivity | simpl; intros [H | []]; discriminate].
Qed.

(** ** Selection *)

Lemma or_else_falsy (a b : option string) :
  JS.truthy a = false -> a <||> b = b.
Proof. unfold JS.or_else; intros ->; reflexivity. Qed.

Lemma or_else_truthy (a b : option string) :
  JS.truthy a = true -> a <||> b = a.
Proof. unfold JS.or_else; intros ->; reflexivity. Qed.

Lemma truthy_id (m : Model.t) :
  Model.id m <> "" -> JS.truthy (Some (Model.id m)) = true.
Proof.
  intros H; simpl.
  destruct (String.eqb_spec (Model.id m) ""); [contradiction | reflexivity].
Qed.

Lemma findState_In st ms m : Store.findState st ms = Some m -> In m ms.
Proof. intros H; apply find_some in H; apply H. Qed.

(** With non-empty ids the chain of [||] in [setModels] is the priority
    order. *)
Lemma chain_is_priorityChoice (ms : list Model.t) :
  (forall m, In m ms -> Model.id m <> "") ->
  Store.id_of (Store.findState ready ms)
  <||> Store.id_of (Store.findState downloaded ms)
  <||> Store.id_of (hd_error ms) <||> None
  = priorityChoice ms.
Proof.
  intros Hids; unfold priorityChoice.
  destruct (Store.findState ready ms) as [r|] eqn:Hr; simpl.
  { apply or_else_truthy, truthy_id, Hids, (findState_In ready), Hr. }
  rewrite or_else_falsy by reflexivity.
  destruct (Store.findState downloaded ms) as [d|] eqn:Hd; simpl.
  { apply or_else_truthy, truthy_id, Hids, (findState_In downloaded), Hd. }
  rewrite or_else_falsy by reflexivity.
  destruct ms as [|m ms]; simpl; [reflexivity|].
  apply or_else_truthy, truthy_id, Hids; left; reflexivity.
Qed.

(** The selection after [setModels], in both cases. *)
Lemma setModels_selection_aux (ms : list Model.t) (s : Store.AppState) :
  (JS.truthy (Store.selectedModelId s) = true ->
   Store.selectedModelId (Store.setModels ms s) = Store.selectedModelId s)
  /\ (JS.truthy (Store.selectedModelId s) = false ->
      (forall m, In m ms -> Model.id m <> "") ->
      Store.selectedModelId (Store.setModels ms s) = priorityChoice ms).
Proof.
  split.
  - intros Hsel; simpl; apply or_else_truthy, Hsel.
  - intros Hsel Hids; simpl.
    rewrite (or_else_falsy _ _ Hsel); apply chain_is_priorityChoice, Hids.
Qed.

(** C4: [setModels] keeps a [selectedModelId] that is set (not null, not
    empty), whoever set it and whether or not the snapshot still lists that
    id; when none is set it chooses from the snapshot by the order ready,
    downloaded, first record. *)
Theorem setModels_selection (ms : list Model.t) (s : Store.AppState) :
  (JS.truthy (Store.selectedModelId s) = true ->
   Store.selectedModelId (Store.setModels ms s) = Store.selectedModelId s)
  /\ (JS.truthy (Store.selectedModelId s) = false ->
      (forall m, In m ms -> Model.id m <> "") ->
      Store.selectedModelId (Store.setModels ms s) = priorityChoice ms).
Proof.
  split.
  - intros Hsel; simpl; apply or_else_truthy, Hsel.
  - intros Hsel Hids; simpl.
    rewrite (or_else_falsy _ _ Hsel); apply chain_is_priorityChoice, Hids.
Qed.

(** The scenario of the design notes: from the empty registry, the snapshot
    of m1 in [ready] and m2 in [not_downloaded] selects m1. *)
Lemma setModels_selection_witness :
  let ms := [sampleModel "m1" ready None None;
             sampleModel "m2" not_downloaded None None] in
  Store.selectedModelId (Store.setModels ms Store.initial) = Some "m1"
  /\ Store.selectedModelId
       (Store.setModels ms (Store.setSelectedModel "m2" Store.initial))
     = Some "m2".
Proof.
  intros ms; split.
  - apply (proj2 (setModels_selection ms Store.initial)); [reflexivity|].
    simpl; intros m [<- | [<- | []]]; discriminate.
  - apply (proj1 (setModels_selection
                    ms (Store.setSelectedModel "m2" Store.initial)));
      reflexivity.
Defined.

(** C4 as stated fails: m9 is selected by [setSelectedModel], the next
    snapshot lists only m1, in [ready]; the selection stays m9, an id the
    registry no longer has, where the priority order gives m1. *)
Lemma selection_kept_for_missing_id :
  let s := Store.setSelectedModel
             "m9" (registryOf [sampleModel "m9" ready None None]) in
  let s' := Store.setModels [sampleModel "m1" ready None None] s in
  Store.selectedModelId s' = Some "m9"
  /\ ~ In "m9" (map Model.id (Store.models s'))
  /\ priorityChoice (Store.models s') = Some "m1".
Proof.
  repeat split; simpl; intros [H | []]; discriminate.
Qed.

(** ** Idempotence and unknown ids *)

Lemma updateModels_idem modelId st p e ms :
  Store.updateModels modelId st p e (Store.updateModels modelId st p e ms)
  = Store.updateModels modelId st p e ms.
Proof.
  unfold Store.updateModels; rewrite map_map; apply map_ext; intros m.
  destruct (Model.id m =? modelId) eqn:Hid; [|rewrite Hid; reflexivity].
  rewrite merged_id, Hid; apply merged_idem.
Qed.

(** C7: delivering the same [model_status] message twice leaves the store
    as delivering it once does. *)
Theorem model_status_idempotent
        (modelId : string) (st : ModelState) (p : option DownloadProgress)
        (e : option string) (s : Store.AppState) :
  App.deliver [model_status modelId st p e; model_status modelId st p e] s
  = App.deliver [model_status modelId st p e] s.
Proof.
  unfold App.deliver; simpl; unfold Store.updateModelStatus; simpl.
  rewrite updateModels_idem; reflexivity.
Qed.

(** C9: a [model_status] message for an id the registry does not hold
    leaves the store as it is.  No update changes the ids of the registry
    or their order, so ids that are distinct stay distinct; and a snapshot
    with distinct ids leaves a registry with distinct ids. *)
Theorem unknown_id_update_ignored
        (modelId : string) (st : ModelState) (p : option DownloadProgress)
        (e : option string) (s : Store.AppState) :
  (~ In modelId (map Model.id (Store.models s)) ->
   fst (App.handleWebSocketMessage (model_status modelId st p e) s) = s)
  /\ map Model.id (Store.models (Store.updateModelStatus modelId st p e s))
     = map Model.id (Store.models s)
  /\ (NoDup (map Model.id (Store.models s)) ->
      NoDup (map Model.id
                 (Store.models (Store.updateModelStatus modelId st p e s))))
  /\ (forall ms,
         NoDup (map Model.id ms) ->
         NoDup (map Model.id (Store.models (Store.setModels ms s)))).
Proof.
  repeat split.
  - intros Hnew; simpl; unfold Store.updateModelStatus.
    rewrite (updateModels_unknown _ _ _ _ _ Hnew); apply with_models_same.
  - apply updateModels_ids.
  - simpl; rewrite updateModels_ids; trivial.
  - trivial.
Qed.

Lemma unknown_id_update_ignored_witness :
  let s := registryOf [sampleModel "m1" ready None None] in
  fst (App.handleWebSocketMessage
         (model_status "m7" downloading (Some halfway) None) s) = s
  /\ NoDup (map Model.id
                (Store.models
                   (Store.updateModelStatus
                      "m7" downloading (Some halfway) None s))).
Proof.
  intros s.
  pose proof (unknown_id_update_ignored
                "m7" downloading (Some halfway) None s) as [H1 [_ [H3 _]]].
  split.
  - apply H1; simpl; intros [H | []]; discriminate.
  - apply H3; simpl; constructor; [intros [] | constructor].
Defined.

(** C9 as stated fails in its second half: a snapshot that lists the id m1
    twice leaves a registry with two records of m1. *)
Lemma snapshot_with_repeated_id :
  let s := Store.setModels
             [sampleModel "m1" ready None None;
              sampleModel "m1" downloading None None] Store.initial in
  count_occ string_dec (map Model.id (Store.models s)) "m1" = 2
  /\ ~ NoDup (map Model.id (Store.models s)).
Proof.
  split; [reflexivity|].
  simpl; intros H; inversion H as [|x l Hnot _]; apply Hnot; left; reflexivity.
Qed.

(** ** Generation *)

Section GenerationFacts.

Context {File : Type} (parseInt : string -> JS.number).

Import GeneratePage.

Lemma handleGenerate_refused (p : PageState File) (s : Store.AppState) :
  canGenerate p s = false -> handleGenerate parseInt p s = (s, None).
Proof.
  unfold canGenerate, handleGenerate.
  destruct (JS.nonEmpty (JS.trim (Store.currentPrompt s))); simpl;
    [|reflexivity].
  destruct (Store.isGenerating s); simpl;
    [rewrite orb_true_r; reflexivity|].
  destruct (JS.truthy (Store.selectedModelId s)); simpl; [|reflexivity].
  destruct (isImg2img (mode p)); simpl; [|discriminate].
  destruct (referenceImage p); simpl; [discriminate | reflexivity].
Qed.

Lemma handleGenerate_started (p : PageState File) (s : Store.AppState) :
  canGenerate p s = true ->
  exists c,
    handleGenerate parseInt p s = (begun s, Some c)
    /\ promptOf c = Store.currentPrompt s
    /\ modelIdOf c = Store.selectedModelId s.
Proof.
  unfold canGenerate, handleGenerate.
  destruct (JS.nonEmpty (JS.trim (Store.currentPrompt s))); simpl;
    [|discriminate].
  destruct (Store.isGenerating s); simpl; [discriminate|].
  destruct (Store.selectedModelId s) as [i|] eqn:Hsel; simpl;
    [|discriminate].
  destruct (negb (i =? "")); simpl; [|discriminate].
  destruct (mode p), (referenceImage p); simpl; try discriminate;
    intros _; eexists; repeat split.
Qed.

(** [handleGenerate] issues a request exactly when [canGenerate] holds. *)
Lemma handleGenerate_canGenerate (p : PageState File) (s s' : Store.AppState)
      (c : ApiCall File) :
  handleGenerate parseInt p s = (s', Some c) ->
  canGenerate p s = true /\ s' = begun s.
Proof.
  intros H; destruct (canGenerate p s) eqn:Hcan.
  - destruct (handleGenerate_started p s Hcan) as [c' [Hc' _]].
    rewrite Hc' in H; injection H as <- _; split; reflexivity.
  - rewrite (handleGenerate_refused p s Hcan) in H; discriminate.
Qed.

Lemma canGenerate_idle (p : PageState File) (s : Store.AppState) :
  canGenerate p s = true -> Store.isGenerating s = false.
Proof.
  unfold canGenerate; destruct (Store.isGenerating s); [|reflexivity].
  rewrite andb_false_r; simpl; discriminate.
Qed.

Lemma canGenerate_pending (p : PageState File) (s : Store.AppState) :
  Store.isGenerating s = true -> canGenerate p s = false.
Proof.
  intros H; destruct (canGenerate p s) eqn:Hcan; [|reflexivity].
  apply canGenerate_idle in Hcan; congruence.
Qed.

(** *** At most one request in flight *)

(** Called from a render that read the store as it is, the callback is
    [handleGenerate] on that store. *)
Lemma handleGenerateFrom_same (p : PageState File) (s : Store.AppState) :
  handleGenerateFrom parseInt p s s = handleGenerate parseInt p s.
Proof. reflexivity. Qed.

(** The decision and the request are those of the render; the writes go to
    the store of the moment. *)
Lemma handleGenerateFrom_live (p : PageState File)
      (seen live : Store.AppState) :
  handleGenerateFrom parseInt p seen live
  = match snd (handleGenerate parseInt p seen) with
    | Some c => (begun live, Some c)
    | None => (live, None)
    end.
Proof.
  unfold handleGenerateFrom, handleGenerate.
  destruct (negb (JS.nonEmpty (JS.trim (Store.currentPrompt seen)))
            || negb (JS.truthy (Store.selectedModelId seen))
            || Store.isGenerating seen); [reflexivity|].
  destruct (isImg2img (mode p) && isNull (referenceImage p)); reflexivity.
Qed.

(** One event from a client whose callbacks are those of a render of the
    current store. *)
Lemma step_guarded (e : Event File) (cl cl' : Client File) :
  guarded cl ->
  seenStore cl = store cl ->
  seenPage cl = page cl ->
  step parseInt e cl = Some cl' -> guarded cl'.
Proof.
  unfold guarded; intros Hinv Hs Hp Hstep; destruct e; simpl in Hstep.
  - injection Hstep as <-; exact Hinv.
  - injection Hstep as <-; simpl.
    rewrite Hs, Hp, handleGenerateFrom_same.
    destruct (canGenerate (page cl) (store cl)) eqn:Hcan.
    + destruct (handleGenerate_started _ _ Hcan) as [c [Hc _]].
      rewrite Hc; simpl.
      pose proof (canGenerate_idle _ _ Hcan) as Hidle.
      destruct (inFlight cl) as [|a [|b l]]; simpl;
        [reflexivity | congruence | contradiction].
    + rewrite (handleGenerate_refused _ _ Hcan); simpl.
      rewrite app_nil_r; exact Hinv.
  - destruct (inFlight cl) as [|a [|b l]]; [discriminate | | contradiction].
    injection Hstep as <-; reflexivity.
  - injection Hstep as <-; exact Hinv.
  - injection Hstep as <-; exact Hinv.
  - injection Hstep as <-; exact Hinv.
  - injection Hstep as <-; exact Hinv.
  - injection Hstep as <-; simpl.
    destruct message; exact Hinv.
Qed.

(** With a render before each event the invariant is kept. *)
Lemma run_guarded (es : list (Event File)) :
  forall cl cl' : Client File,
    guarded cl -> run parseInt (renderEach es) cl = Some cl' -> guarded cl'.
Proof.
  induction es as [|e es IH]; simpl; intros cl cl' Hinv Hrun.
  - injection Hrun as <-; exact Hinv.
  - match type of Hrun with
    | match step parseInt e ?r with _ => _ end = _ =>
        destruct (step parseInt e r) as [cl1|] eqn:Hstep; [|discriminate];
        apply (IH cl1 cl'); [|exact Hrun];
        apply (step_guarded e r cl1); [exact Hinv | reflexivity
                                       | reflexivity | exact Hstep]
    end.
Qed.

Lemma guarded_at_most_one (cl : Client File) :
  guarded cl ->
  List.length (inFlight cl) <= 1
  /\ (Store.isGenerating (store cl) = true <-> inFlight cl <> []).
Proof.
  unfold guarded; destruct (inFlight cl) as [|a [|b l]]; simpl; intros H.
  - split; [lia|]; rewrite H; split; [discriminate | congruence].
  - split; [lia|]; rewrite H; split; [discriminate | reflexivity].
  - contradiction.
Qed.

End GenerationFacts.

Lemma canGenerate_parts {File : Type} (p : GeneratePage.PageState File)
      (s : Store.AppState) :
  GeneratePage.canGenerate p s = true ->
  JS.whitespaceOnly (Store.currentPrompt s) = false
  /\ Store.isGenerating s = false
  /\ JS.truthy (Store.selectedModelId s) = true
  /\ (GeneratePage.mode p = GeneratePage.img2img ->
      GeneratePage.referenceImage p <> None).
Proof.
  unfold GeneratePage.canGenerate; rewrite nonEmpty_trim.
  rewrite !andb_true_iff, orb_true_iff, !negb_true_iff.
  intros [[[Hp Hg] Hm] Hr]; repeat split; try assumption.
  intros Hmode Href; rewrite Hmode, Href in Hr; simpl in Hr.
  destruct Hr; discriminate.
Qed.

(** What the guard does for calls that each come from a render of the
    current store: a call of [handleGenerate] that issues a request found the
    store idle and leaves it generating; while it is generating every further
    call issues nothing and changes nothing; when the request is rejected with
    an [Error] the store is idle again with the message of the error as
    [generationError], and the same call then issues the same request again.
    Over every sequence of events with a render before each, at most one
    request is in flight, and one is in flight exactly while the store is
    generating. *)
Lemma fresh_render_guard
      {File : Type} (parseInt : string -> JS.number)
      (p : GeneratePage.PageState File) (s s1 : Store.AppState)
      (c : GeneratePage.ApiCall File) (message : string) :
  GeneratePage.handleGenerate parseInt p s = (s1, Some c) ->
  Store.isGenerating s = false
  /\ Store.isGenerating s1 = true
  /\ (forall p' : GeneratePage.PageState File,
         GeneratePage.handleGenerate parseInt p' s1 = (s1, None))
  /\ (let s2 := GeneratePage.handleGenerate_settled
                  (inr (GeneratePage.ErrorObject message)) s1 in
      Store.isGenerating s2 = false
      /\ Store.generationError s2 = Some message
      /\ GeneratePage.handleGenerate parseInt p s2 = (s1, Some c))
  /\ (forall (es : list (GeneratePage.Event File))
             (p0 : GeneratePage.PageState File) cl,
         GeneratePage.run parseInt (GeneratePage.renderEach es)
                          (GeneratePage.start p0) = Some cl ->
         List.length (GeneratePage.inFlight cl) <= 1
         /\ (Store.isGenerating (GeneratePage.store cl) = true
             <-> GeneratePage.inFlight cl <> [])).
Proof.
  intros H.
  destruct (handleGenerate_canGenerate parseInt p s s1 c H) as [Hcan ->].
  repeat apply conj.
  - exact (canGenerate_idle p s Hcan).
  - reflexivity.
  - intros p'; apply handleGenerate_refused, canGenerate_pending; reflexivity.
  - reflexivity.
  - reflexivity.
  - pose proof (canGenerate_idle p s Hcan) as Hidle.
    unfold GeneratePage.handleGenerate in *; simpl; rewrite Hidle in H.
    destruct (negb (JS.nonEmpty (JS.trim (Store.currentPrompt s)))
              || negb (JS.truthy (Store.selectedModelId s)) || false);
      [discriminate H|].
    destruct (GeneratePage.isImg2img (GeneratePage.mode p)
              && GeneratePage.isNull (GeneratePage.referenceImage p));
      [discriminate H|].
    rewrite <- H; reflexivity.
  - intros es p0 cl Hrun.
    apply (guarded_at_most_one cl).
    apply (run_guarded parseInt es (GeneratePage.start p0) cl);
      [reflexivity | exact Hrun].
Qed.

(** C10: [handleGenerate] returns at once, with the store as it was and no
    request, when the prompt is empty or white space only, when no model is
    selected, or when the mode is [img2img] and there is no reference image.
    A request it does issue carries a prompt that is not blank and a model
    id that is not empty. *)
Theorem handleGenerate_noop_when_blank
        {File : Type} (parseInt : string -> JS.number)
        (p : GeneratePage.PageState File) (s : Store.AppState) :
  (JS.whitespaceOnly (Store.currentPrompt s) = true
   \/ JS.truthy (Store.selectedModelId s) = false
   \/ (GeneratePage.mode p = GeneratePage.img2img
       /\ GeneratePage.referenceImage p = None) ->
   GeneratePage.handleGenerate parseInt p s = (s, None))
  /\ (forall s' c,
         GeneratePage.handleGenerate parseInt p s = (s', Some c) ->
         JS.whitespaceOnly (GeneratePage.promptOf c) = false
         /\ exists i, GeneratePage.modelIdOf c = Some i /\ i <> "").
Proof.
  split.
  - intros Hblank; apply handleGenerate_refused.
    destruct (GeneratePage.canGenerate p s) eqn:Hcan; [|reflexivity].
    destruct (canGenerate_parts p s Hcan) as [Hp [_ [Hm Hr]]].
    destruct Hblank as [Hb | [Hb | [Hmode Href]]];
      [congruence | congruence | exfalso; exact (Hr Hmode Href)].
  - intros s' c H.
    destruct (handleGenerate_canGenerate parseInt p s s' c H) as [Hcan _].
    destruct (handleGenerate_started parseInt p s Hcan) as [c' [Hc' [Hpr Hid]]].
    rewrite Hc' in H; injection H as _ <-.
    destruct (canGenerate_parts p s Hcan) as [Hp [_ [Hm _]]].
    rewrite Hpr, Hid; split; [exact Hp|].
    destruct (Store.selectedModelId s) as [i|]; [|discriminate].
    exists i; split; [reflexivity|].
    intros ->; discriminate.
Qed.


(** The scenario of the design notes, each call coming from a render of the
    current store: a first attempt starts, a second one while it is pending
    does not, the failure boom is recorded, and the next attempt starts. *)
Lemma fresh_render_guard_scenario :
  let s := sampleStore "a cat" in
  let s1 := GeneratePage.begun s in
  let s2 := GeneratePage.handleGenerate_settled
              (inr (GeneratePage.ErrorObject "boom")) s1 in
  GeneratePage.handleGenerate noParse samplePage s
  = (s1, Some (sampleCall "a cat"))
  /\ GeneratePage.handleGenerate noParse samplePage s1 = (s1, None)
  /\ Store.isGenerating s2 = false
  /\ Store.generationError s2 = Some "boom"
  /\ GeneratePage.handleGenerate noParse samplePage s2
     = (s1, Some (sampleCall "a cat")).
Proof.
  intros s s1 s2.
  assert (H : GeneratePage.handleGenerate noParse samplePage s
              = (s1, Some (sampleCall "a cat"))) by reflexivity.
  destruct (fresh_render_guard
              noParse samplePage s s1 (sampleCall "a cat") "boom" H)
    as [_ [_ [Hsecond [[Hidle [Herr Hagain]] _]]]].
  exact (conj H (conj (Hsecond samplePage)
                      (conj Hidle (conj Herr Hagain)))).
Defined.

Lemma handleGenerate_noop_when_blank_witness :
  let blank := Store.setCurrentPrompt [0x20; 0x09; 0xA0; 0x0A; 0x3000]%N
                                      (sampleStore "") in
  GeneratePage.handleGenerate noParse samplePage blank = (blank, None)
  /\ JS.whitespaceOnly
       (GeneratePage.promptOf (sampleCall "a cat")) = false.
Proof.
  intros blank; split.
  - apply (proj1 (handleGenerate_noop_when_blank noParse samplePage blank)).
    left; reflexivity.
  - apply (proj2 (handleGenerate_noop_when_blank
                    noParse samplePage (sampleStore "a cat"))
                 (GeneratePage.begun (sampleStore "a cat"))
                 (sampleCall "a cat")).
    reflexivity.
Defined.

(** ** The WebSocket session *)

Section SessionFacts.

Import UseWebSocket.

Variable interval : option JS.number.
Variable urlAccepted : bool.

Lemma connect_timeouts (h : Hook) :
  timeouts (connect urlAccepted h) = timeouts h
  /\ reconnectTimeoutRef (connect urlAccepted h) = reconnectTimeoutRef h.
Proof.
  unfold connect; destruct (mountedRef h); simpl; [|split; reflexivity].
  destruct (readyState h) as [[| | |]|]; destruct urlAccepted;
    split; reflexivity.
Qed.

Lemma clearTimeout_handles (t : positive) (h : Hook) :
  ~ In t (handles (clearTimeout t h))
  /\ incl (handles (clearTimeout t h)) (handles h).
Proof.
  unfold handles, clearTimeout; simpl; split.
  - rewrite in_map_iff; intros [[t' d] [Ht Hin]]; simpl in Ht; subst t'.
    apply filter_In in Hin; destruct Hin as [_ Hne]; simpl in Hne.
    rewrite Pos.eqb_refl in Hne; discriminate.
  - intros x; rewrite !in_map_iff; intros [e [He Hin]].
    exists e; split; [exact He|]; apply filter_In in Hin; apply Hin.
Qed.

Lemma closeSocket_timeouts (k : nat) (h : Hook) :
  timeouts (closeSocket k h) = timeouts h
  /\ reconnectTimeoutRef (closeSocket k h) = reconnectTimeoutRef h.
Proof.
  unfold closeSocket; destruct (nth_error (sockets h) k) as [[| | |]|];
    split; reflexivity.
Qed.

(** [disconnect] cancels the timeout [reconnectTimeoutRef] holds and clears
    the ref; it adds none. *)
Lemma disconnect_cancels (h : Hook) :
  reconnectTimeoutRef (disconnect h) = None
  /\ incl (handles (disconnect h)) (handles h)
  /\ (forall t, reconnectTimeoutRef h = Some t ->
                ~ In t (handles (disconnect h))).
Proof.
  unfold disconnect.
  destruct (reconnectTimeoutRef h) as [t|] eqn:Href.
  - set (h1 := with_reconnectTimeoutRef None (clearTimeout t h)).
    assert (Hh1 : handles h1 = handles (clearTimeout t h)) by reflexivity.
    assert (Hfinal : forall h2,
               timeouts h2 = timeouts h1 /\ reconnectTimeoutRef h2 = None ->
               reconnectTimeoutRef h2 = None
               /\ incl (handles h2) (handles h)
               /\ (forall t0, Some t = Some t0 -> ~ In t0 (handles h2))).
    { intros h2 [Ht Hr]; unfold handles at 1 3; rewrite Ht.
      fold (handles h1); rewrite Hh1.
      destruct (clearTimeout_handles t h) as [Hnot Hincl].
      repeat split; [exact Hr | exact Hincl |].
      intros t0 Heq; injection Heq as <-; exact Hnot. }
    apply Hfinal.
    destruct (wsRef h1) as [k|]; [|split; reflexivity].
    destruct (closeSocket_timeouts k h1) as [Ht Hr]; simpl.
    split; [exact Ht | exact Hr].
  - assert (Hfinal : forall h2,
               timeouts h2 = timeouts h /\ reconnectTimeoutRef h2 = None ->
               reconnectTimeoutRef h2 = None
               /\ incl (handles h2) (handles h)
               /\ (forall t0, None = Some t0 -> ~ In t0 (handles h2))).
    { intros h2 [Ht Hr]; unfold handles; rewrite Ht.
      repeat split; [exact Hr | apply incl_refl | discriminate]. }
    apply Hfinal.
    destruct (wsRef h) as [k|]; [|split; [reflexivity | exact Href]].
    destruct (closeSocket_timeouts k h) as [Ht Hr]; simpl.
    split; [exact Ht | rewrite Hr; exact Href].
Qed.

(** A close with the normal code schedules nothing. *)
Lemma onclose_normal (h : Hook) :
  timeouts (onclose interval 1000 h) = timeouts h
  /\ reconnectTimeoutRef (onclose interval 1000 h) = reconnectTimeoutRef h
  /\ nextHandle (onclose interval 1000 h) = nextHandle h.
Proof.
  unfold onclose; destruct (mountedRef h); repeat split.
Qed.

(** A close with another code, while mounted, schedules one timeout, with
    the reconnect interval as delay, and keeps its handle in the ref. *)
Lemma onclose_ungraceful (code : N) (h : Hook) :
  code <> 1000%N ->
  mountedRef h = true ->
  timeouts (onclose interval code h)
  = timeouts h ++ [(nextHandle h, reconnectInterval interval)]
  /\ reconnectTimeoutRef (onclose interval code h) = Some (nextHandle h)
  /\ wsRef (onclose interval code h) = None
  /\ mountedRef (onclose interval code h) = true
  /\ sockets (onclose interval code h) = sockets h.
Proof.
  intros Hcode Hm; unfold onclose; rewrite Hm; simpl.
  destruct (N.eqb_spec code 1000) as [Heq|_]; [contradiction|].
  simpl; rewrite Hm; simpl; repeat split; exact Hm.
Qed.

(** Unmounted, [onclose] does nothing. *)
Lemma onclose_unmounted (code : N) (h : Hook) :
  mountedRef h = false -> onclose interval code h = h.
Proof. intros Hm; unfold onclose; rewrite Hm; reflexivity. Qed.

(** Only an ungraceful close adds a timeout. *)
Lemma step_adds_no_timeout (e : Event) (h : Hook) :
  ungraceful e = false ->
  incl (handles (step interval urlAccepted e h)) (handles h).
Proof.
  intros He; destruct e; simpl in *.
  - unfold mount, handles.
    rewrite (proj1 (connect_timeouts _)); apply incl_refl.
  - unfold unmount.
    apply (proj1 (proj2 (disconnect_cancels (with_mountedRef false h)))).
  - unfold handles; rewrite (proj1 (connect_timeouts _)); apply incl_refl.
  - unfold onopen; simpl; destruct (mountedRef h); apply incl_refl.
  - apply negb_false_iff, N.eqb_eq in He; subst code.
    unfold handles; rewrite (proj1 (onclose_normal _)); apply incl_refl.
  - apply incl_refl.
  - destruct frame; apply incl_refl.
  - destruct (pending t h); [|apply incl_refl].
    unfold reconnectCallback.
    destruct (mountedRef (clearTimeout t h));
      [unfold handles at 1; rewrite (proj1 (connect_timeouts _))|];
      apply clearTimeout_handles.
  - unfold send; destruct (wsRef h); [|apply incl_refl].
    destruct (readyState h) as [[| | |]|]; apply incl_refl.
Qed.

End SessionFacts.

(** Once the owner is unmounted a timeout that still runs constructs no
    socket: the reconnect closure reads [mountedRef] first. *)
Lemma timeout_after_unmount
      (interval : option JS.number) (urlAccepted : bool) (t : positive)
      (h : UseWebSocket.Hook) :
  UseWebSocket.sockets
    (UseWebSocket.step interval urlAccepted (UseWebSocket.Timeout t)
                       (UseWebSocket.unmount h))
  = UseWebSocket.sockets (UseWebSocket.unmount h).
Proof.
  assert (Hm : UseWebSocket.mountedRef (UseWebSocket.unmount h) = false).
  { unfold UseWebSocket.unmount, UseWebSocket.disconnect; simpl.
    destruct (UseWebSocket.reconnectTimeoutRef h); simpl;
      destruct (UseWebSocket.wsRef h) as [k|]; simpl; try reflexivity;
      unfold UseWebSocket.closeSocket; simpl;
      destruct (nth_error (UseWebSocket.sockets h) k) as [[| | |]|];
      reflexivity. }
  simpl; destruct (UseWebSocket.pending t (UseWebSocket.unmount h));
    [|reflexivity].
  unfold UseWebSocket.reconnectCallback; simpl; rewrite Hm; reflexivity.
Qed.

Lemma incl_singleton_out {A : Type} (x : A) (l : list A) :
  incl l [x] -> ~ In x l -> l = [].
Proof.
  destruct l as [|y l]; [reflexivity|]; intros Hincl Hout; exfalso.
  assert (Hy : In y [x]) by (apply Hincl; left; reflexivity).
  destruct Hy as [<- | []]; apply Hout; left; reflexivity.
Qed.

(** The timeout an ungraceful close scheduled, when it runs while the owner
    is mounted, constructs one socket. *)
Lemma scheduled_timeout_connects
      (interval : option JS.number) (code : N) (h : UseWebSocket.Hook) :
  code <> 1000%N ->
  UseWebSocket.mountedRef h = true ->
  UseWebSocket.sockets
    (UseWebSocket.step interval true
       (UseWebSocket.Timeout (UseWebSocket.nextHandle h))
       (UseWebSocket.onclose interval code h))
  = UseWebSocket.sockets h ++ [UseWebSocket.CONNECTING].
Proof.
  intros Hcode Hm.
  destruct (onclose_ungraceful interval code h Hcode Hm)
    as [Ht [_ [Hws [Hm' Hs]]]].
  unfold UseWebSocket.step, UseWebSocket.pending; rewrite Ht, existsb_app.
  simpl; rewrite Pos.eqb_refl, orb_true_r.
  unfold UseWebSocket.reconnectCallback, UseWebSocket.connect; simpl.
  rewrite Hm'; simpl.
  unfold UseWebSocket.readyState; simpl; rewrite Hws, Hs; reflexivity.
Qed.

(** What one close event does: with code 1000 it schedules no timeout.
    With any other code, while the owner is mounted, it schedules exactly
    one, whose delay is the reconnect interval and whose callback constructs
    one socket; the unmount that follows cancels it.  The interval is the one
    the options give and 3000 when they give none, [disconnect] cancels the
    timeout the ref holds, no other event of the hook schedules a timeout, and
    after an unmount no timeout that runs constructs a socket. *)
Lemma reconnect_only_after_ungraceful_close
        (interval : option JS.number) (urlAccepted : bool)
        (h : UseWebSocket.Hook) (k : nat) (code : N) :
  let closed :=
    UseWebSocket.step interval urlAccepted (UseWebSocket.Close k code) h in
  (code = 1000%N -> UseWebSocket.timeouts closed = UseWebSocket.timeouts h)
  /\ (code <> 1000%N ->
      UseWebSocket.mountedRef h = true ->
      UseWebSocket.timeouts closed
      = UseWebSocket.timeouts h
          ++ [(UseWebSocket.nextHandle h,
               UseWebSocket.reconnectInterval interval)]
      /\ UseWebSocket.reconnectTimeoutRef closed
         = Some (UseWebSocket.nextHandle h)
      /\ UseWebSocket.sockets
           (UseWebSocket.step interval true
              (UseWebSocket.Timeout (UseWebSocket.nextHandle h)) closed)
         = UseWebSocket.sockets closed ++ [UseWebSocket.CONNECTING]
      /\ ~ In (UseWebSocket.nextHandle h)
           (UseWebSocket.handles
              (UseWebSocket.step interval urlAccepted
                                 UseWebSocket.Unmount closed))
      /\ (UseWebSocket.timeouts h = [] ->
          UseWebSocket.timeouts
            (UseWebSocket.step interval urlAccepted
                               UseWebSocket.Unmount closed) = []))
  /\ UseWebSocket.reconnectInterval None = 3000%float
  /\ (forall v, UseWebSocket.reconnectInterval (Some v) = v)
  /\ (forall t,
         UseWebSocket.reconnectTimeoutRef h = Some t ->
         ~ In t (UseWebSocket.handles (UseWebSocket.disconnect h)))
  /\ (forall e,
         UseWebSocket.ungraceful e = false ->
         incl (UseWebSocket.handles (UseWebSocket.step interval urlAccepted e h))
              (UseWebSocket.handles h))
  /\ (forall t,
         UseWebSocket.sockets
           (UseWebSocket.step interval urlAccepted (UseWebSocket.Timeout t)
                              (UseWebSocket.unmount h))
         = UseWebSocket.sockets (UseWebSocket.unmount h)).
Proof.
  intros closed; subst closed; repeat apply conj.
  - intros ->; simpl.
    rewrite (proj1 (onclose_normal interval _)); reflexivity.
  - intros Hcode Hm; simpl.
    set (h0 := UseWebSocket.with_sockets _ h).
    assert (Hm0 : UseWebSocket.mountedRef h0 = true) by exact Hm.
    destruct (onclose_ungraceful interval code h0 Hcode Hm0)
      as [Ht [Hr [_ [_ Hs]]]].
    set (closed := UseWebSocket.onclose interval code h0) in *.
    assert (Hout : ~ In (UseWebSocket.nextHandle h)
                     (UseWebSocket.handles (UseWebSocket.unmount closed))).
    { apply (proj2 (proj2 (disconnect_cancels
                             (UseWebSocket.with_mountedRef false closed)))).
      exact Hr. }
    repeat apply conj.
    + exact Ht.
    + exact Hr.
    + rewrite Hs; apply (scheduled_timeout_connects interval code h0 Hcode Hm0).
    + exact Hout.
    + intros Hnone.
      apply map_eq_nil with (f := fst).
      apply (incl_singleton_out (UseWebSocket.nextHandle h)); [|exact Hout].
      intros x Hx.
      apply (proj1 (proj2 (disconnect_cancels
                             (UseWebSocket.with_mountedRef false closed)))) in Hx.
      unfold UseWebSocket.handles in Hx; simpl in Hx.
      rewrite Ht in Hx; simpl in Hx; rewrite Hnone in Hx; exact Hx.
  - reflexivity.
  - intros v; reflexivity.
  - intros t Ht; apply (proj2 (proj2 (disconnect_cancels h))); exact Ht.
  - intros e He; apply step_adds_no_timeout; exact He.
  - intros t; apply timeout_after_unmount.
Qed.

(** C8: [send] hands the message to the socket when [wsRef] holds a socket
    whose [readyState] is [OPEN], and otherwise returns with nothing
    changed. *)
Theorem send_only_when_open (message : string) (h : UseWebSocket.Hook) :
  (UseWebSocket.readyState h = Some UseWebSocket.OPEN ->
   exists k,
     UseWebSocket.wsRef h = Some k
     /\ UseWebSocket.send message h
        = UseWebSocket.with_sent (UseWebSocket.sent h ++ [(k, message)]) h)
  /\ (UseWebSocket.readyState h <> Some UseWebSocket.OPEN ->
      UseWebSocket.send message h = h).
Proof.
  unfold UseWebSocket.send; split.
  - intros Hopen; rewrite Hopen.
    unfold UseWebSocket.readyState in Hopen.
    destruct (UseWebSocket.wsRef h) as [k|]; [|discriminate].
    exists k; split; reflexivity.
  - intros Hnot; destruct (UseWebSocket.wsRef h); [|reflexivity].
    destruct (UseWebSocket.readyState h) as [[| | |]|];
      try reflexivity; contradiction.
Qed.

(** The scenario of the design notes: an open session closes with code
    1006 and one timeout of 3000 ms is pending; the unmount cancels it. *)
Lemma reconnect_after_close_scenario :
  let closed := UseWebSocket.step None true (UseWebSocket.Close 0 1006)
                                  connected in
  UseWebSocket.timeouts closed = [(1%positive, 3000%float)]
  /\ UseWebSocket.timeouts
       (UseWebSocket.step None true UseWebSocket.Unmount closed) = []
  /\ UseWebSocket.timeouts
       (UseWebSocket.step None true (UseWebSocket.Close 0 1000) connected)
     = [].
Proof.
  intros closed.
  destruct (reconnect_only_after_ungraceful_close None true connected 0 1006)
    as [_ [Hun _]].
  destruct Hun as [Hone [_ [_ [_ Hcancel]]]];
    [discriminate | reflexivity |].
  destruct (reconnect_only_after_ungraceful_close None true connected 0 1000)
    as [Hnormal _].
  exact (conj Hone (conj (Hcancel eq_refl) (Hnormal eq_refl))).
Defined.

Lemma send_only_when_open_witness :
  UseWebSocket.sent (UseWebSocket.send "ping" connected) = [(0, "ping")]
  /\ UseWebSocket.send "ping" UseWebSocket.initial = UseWebSocket.initial.
Proof.
  destruct (send_only_when_open "ping" connected) as [Hopen _].
  destruct (Hopen eq_refl) as [k [Hk Hsend]].
  destruct (send_only_when_open "ping" UseWebSocket.initial) as [_ Hclosed].
  split.
  - rewrite Hsend; injection Hk as <-; reflexivity.
  - apply Hclosed; discriminate.
Defined.


(** The ref holds one handle.  When the close event of a socket closed by
    an unmount arrives after the next mount, its handler schedules a timeout
    for the new session; if the new socket then closes too, the ref moves to
    the second timeout and the unmount cancels only that one.  The first
    stays pending and does nothing when it runs unmounted. *)
Example earlier_timeout_survives_unmount :
  let h := UseWebSocket.run None true
             [UseWebSocket.Mount; UseWebSocket.Unmount; UseWebSocket.Mount;
              UseWebSocket.Close 0 1006; UseWebSocket.Close 1 1006]
             UseWebSocket.initial in
  UseWebSocket.handles h = [1%positive; 2%positive]
  /\ UseWebSocket.reconnectTimeoutRef h = Some 2%positive
  /\ UseWebSocket.handles (UseWebSocket.unmount h) = [1%positive].
Proof. repeat split. Qed.

(** ** The model on small inputs *)

Example trim_strips_both_ends :
  JS.trim (JS.lit "  a cat  ") = JS.lit "a cat".
Proof. reflexivity. Qed.

Example trim_keeps_inner_space :
  JS.trim [0xA0; 0x61; 0x20; 0x62; 0x2028]%N = [0x61; 0x20; 0x62]%N.
Proof. reflexivity. Qed.

Example empty_id_is_falsy :
  Some "" <||> Some "m1" <||> None = Some "m1".
Proof. reflexivity. Qed.

Example nullish_keeps_empty_string :
  Some "" ?? Some "boom" = Some "".
Proof. reflexivity. Qed.

Example automatic_choice_is_kept :
  let s1 := Store.setModels [sampleModel "m2" not_downloaded None None]
                            Store.initial in
  let s2 := Store.setModels [sampleModel "m1" ready None None;
                             sampleModel "m2" not_downloaded None None] s1 in
  Store.selectedModelId s1 = Some "m2"
  /\ Store.selectedModelId s2 = Some "m2".
Proof. split; reflexivity. Qed.

Example canGenerate_sample :
  GeneratePage.canGenerate samplePage (sampleStore "a cat") = true
  /\ GeneratePage.canGenerate samplePage
       (GeneratePage.begun (sampleStore "a cat")) = false.
Proof. split; reflexivity. Qed.

(** * Further properties of the store *)



(** X2: updates to two different ids commute: the store is the same
    whichever arrives first. *)
Theorem updateModelStatus_commute
        (a b : string) (sa sb : ModelState)
        (pa pb : option DownloadProgress) (ea eb : option string)
        (s : Store.AppState) :
  a <> b ->
  Store.updateModelStatus a sa pa ea (Store.updateModelStatus b sb pb eb s)
  = Store.updateModelStatus b sb pb eb (Store.updateModelStatus a sa pa ea s).
Proof.
  intros Hab; unfold Store.updateModelStatus, Store.with_models; simpl.
  f_equal.
  unfold Store.updateModels; rewrite !map_map; apply map_ext; intros m.
  destruct (Model.id m =? a) eqn:Ha, (Model.id m =? b) eqn:Hb;
    rewrite ?merged_id, ?Ha, ?Hb; try reflexivity.
  apply String.eqb_eq in Ha, Hb; exfalso; congruence.
Qed.

Lemma updateModelStatus_commute_witness :
  let s := registryOf [sampleModel "m1" ready None None;
                       sampleModel "m2" downloading (Some halfway) None] in
  Store.updateModelStatus "m1" loading None None
    (Store.updateModelStatus "m2" downloaded None None s)
  = Store.updateModelStatus "m2" downloaded None None
      (Store.updateModelStatus "m1" loading None None s).
Proof.
  intros s.
  apply (updateModelStatus_commute "m1" "m2"); discriminate.
Defined.

Lemma or_else_absorb (x y : option string) : (x <||> y) <||> y = x <||> y.
Proof.
  unfold JS.or_else; destruct (JS.truthy x) eqn:Hx; [rewrite Hx; reflexivity|].
  destruct (JS.truthy y); reflexivity.
Qed.

(** X3: applying the same snapshot twice is applying it once, for the
    registry and for the selection. *)
Theorem setModels_idempotent (ms : list Model.t) (s : Store.AppState) :
  Store.setModels ms (Store.setModels ms s) = Store.setModels ms s.
Proof.
  unfold Store.setModels; simpl; rewrite or_else_absorb; reflexivity.
Qed.

Lemma or_else_result (x y : option string) :
  (JS.truthy y = true \/ y = None) ->
  JS.truthy (x <||> y) = true \/ x <||> y = None.
Proof.
  unfold JS.or_else; destruct (JS.truthy x) eqn:Hx; [left; exact Hx | trivial].
Qed.

Lemma id_of_In (o : option Model.t) (ms : list Model.t) (i : string) :
  (forall m, o = Some m -> In m ms) ->
  Store.id_of o = Some i -> exists m, In m ms /\ Model.id m = i.
Proof.
  destruct o as [m|]; simpl; [|discriminate].
  intros Hin H; injection H as <-; exists m; split; [apply Hin|]; reflexivity.
Qed.

(** X4: the selection [setModels] leaves is never the empty id: it is null
    or a non-empty id.  When nothing was selected before, a non-null
    selection is the id of a record of the snapshot, and the selection is
    null only if the snapshot is empty or its first record has the empty id. *)
Theorem setModels_selects_from_snapshot
        (ms : list Model.t) (s : Store.AppState) :
  (JS.truthy (Store.selectedModelId (Store.setModels ms s)) = true
   \/ Store.selectedModelId (Store.setModels ms s) = None)
  /\ (JS.truthy (Store.selectedModelId s) = false ->
      match Store.selectedModelId (Store.setModels ms s) with
      | Some i => i <> "" /\ exists m, In m ms /\ Model.id m = i
      | None => ms = [] \/ exists m rest, ms = m :: rest /\ Model.id m = ""
      end).
Proof.
  split.
  - simpl; repeat apply or_else_result; right; reflexivity.
  - intros Hsel; simpl; rewrite (or_else_falsy _ _ Hsel).
    set (a := Store.id_of (Store.findState ready ms)).
    set (b := Store.id_of (Store.findState downloaded ms)).
    set (c := Store.id_of (hd_error ms)).
    assert (Ha : forall i, a = Some i -> exists m, In m ms /\ Model.id m = i).
    { intros i; apply id_of_In; intros m; apply findState_In. }
    assert (Hb : forall i, b = Some i -> exists m, In m ms /\ Model.id m = i).
    { intros i; apply id_of_In; intros m; apply findState_In. }
    assert (Hc : forall i, c = Some i -> exists m, In m ms /\ Model.id m = i).
    { intros i; apply id_of_In; intros m.
      destruct ms; simpl; [discriminate|].
      intros H; injection H as <-; left; reflexivity. }
    assert (Hout : forall x : option string,
               JS.truthy x = true ->
               (forall i, x = Some i -> exists m, In m ms /\ Model.id m = i) ->
               match x with
               | Some i => i <> "" /\ exists m, In m ms /\ Model.id m = i
               | None => ms = [] \/
                         exists m rest, ms = m :: rest /\ Model.id m = ""
               end).
    { intros [i|] Ht Hin; [|discriminate]; split; [|apply Hin; reflexivity].
      intros ->; discriminate. }
    unfold JS.or_else at 1; destruct (JS.truthy a) eqn:Hta; [exact (Hout a Hta Ha)|].
    unfold JS.or_else at 1; destruct (JS.truthy b) eqn:Htb; [exact (Hout b Htb Hb)|].
    unfold JS.or_else; destruct (JS.truthy c) eqn:Htc; [exact (Hout c Htc Hc)|].
    subst c; destruct ms as [|m rest]; [left; reflexivity|right].
    exists m, rest; split; [reflexivity|].
    simpl in Htc; destruct (String.eqb_spec (Model.id m) "");
      [assumption | discriminate].
Qed.

Lemma setModels_selects_from_snapshot_witness :
  let ms := [sampleModel "m2" not_downloaded None None;
             sampleModel "m1" downloaded None None] in
  match Store.selectedModelId (Store.setModels ms Store.initial) with
  | Some i => i <> "" /\ exists m, In m ms /\ Model.id m = i
  | None => ms = [] \/ exists m rest, ms = m :: rest /\ Model.id m = ""
  end.
Proof.
  intros ms.
  apply (proj2 (setModels_selects_from_snapshot ms Store.initial)).
  reflexivity.
Defined.

Lemma find_by_id (ms : list Model.t) (m : Model.t) :
  NoDup (map Model.id ms) ->
  In m ms ->
  find (fun x => Model.id x =? Model.id m) ms = Some m.
Proof.
  induction ms as [|x ms IH]; simpl; [intros _ []|].
  intros Hnd [-> | Hin].
  - rewrite String.eqb_refl; reflexivity.
  - inversion Hnd as [|? ? Hx Hrest]; subst.
    destruct (String.eqb_spec (Model.id x) (Model.id m)) as [Heq|_].
    + exfalso; apply Hx; rewrite Heq; apply in_map; exact Hin.
    + apply IH; assumption.
Qed.

Lemma existsb_find {A : Type} (f : A -> bool) (l : list A) :
  existsb f l = true -> exists x, find f l = Some x /\ f x = true.
Proof.
  induction l as [|a l IH]; simpl; [discriminate|].
  destruct (f a) eqn:Hfa; simpl; [intros _; exists a; split; trivial | exact IH].
Qed.

(** X5: when the ids of a snapshot are distinct and not empty, nothing is
    selected yet and the snapshot has a ready model, the model the page
    looks up for the selection after the snapshot is a ready one, so the
    button to the generate page never leads to a page without a usable
    selection. *)
Theorem ready_model_is_selected (ms : list Model.t) (s : Store.AppState) :
  JS.truthy (Store.selectedModelId s) = false ->
  NoDup (map Model.id ms) ->
  (forall m, In m ms -> Model.id m <> "") ->
  InitPage.hasReadyModel (Store.setModels ms s) = true ->
  exists m,
    GeneratePageHandlers.selectedModel (Store.setModels ms s) = Some m
    /\ Model.state m = ready
    /\ In m (GeneratePageHandlers.readyModels (Store.setModels ms s)).
Proof.
  intros Hsel Hnd Hids Hready.
  unfold InitPage.hasReadyModel in Hready; simpl in Hready.
  destruct (existsb_find _ _ Hready) as [r [Hfind Hst]].
  exists r.
  assert (Hin : In r ms) by (apply (findState_In ready); exact Hfind).
  unfold GeneratePageHandlers.selectedModel, GeneratePageHandlers.readyModels.
  rewrite (proj2 (setModels_selection_aux ms s) Hsel Hids).
  unfold priorityChoice; fold (Store.findState ready ms) in Hfind.
  rewrite Hfind; simpl; repeat split.
  - apply find_by_id; assumption.
  - apply ModelState_eqb_eq; exact Hst.
  - apply filter_In; split; assumption.
Qed.

Lemma ready_model_is_selected_witness :
  let ms := [sampleModel "m2" not_downloaded None None;
             sampleModel "m1" ready None None] in
  exists m,
    GeneratePageHandlers.selectedModel (Store.setModels ms Store.initial)
    = Some m
    /\ Model.state m = ready
    /\ In m (GeneratePageHandlers.readyModels
               (Store.setModels ms Store.initial)).
Proof.
  intros ms.
  apply (ready_model_is_selected ms Store.initial).
  - reflexivity.
  - simpl; constructor; [intros [H | []]; discriminate|].
    constructor; [intros [] | constructor].
  - simpl; intros m [<- | [<- | []]]; discriminate.
  - reflexivity.
Defined.

Lemma toString_Error (message : string) :
  Api.toString (Api.newError message)
  = if message =? "" then "Error" else ("Error: " ++ message)%string.
Proof. reflexivity. Qed.

Lemma toString_Error_truthy (e : Api.JsError) :
  Api.errName e = "Error" -> JS.truthy (Some (Api.toString e)) = true.
Proof.
  intros Hname; unfold Api.toString; rewrite Hname; simpl.
  destruct (Api.errMessage e =? ""); reflexivity.
Qed.

(** X6: when [downloadModel] or [loadModel] is rejected, the record of the
    model goes to [error] with [String(err)] as its message, whatever
    message it had, and keeps its progress; its card then offers the retry
    button, which starts the download of the same model again, and for an
    [Error] thrown by the api client the error box shows that message. *)
Theorem rejected_download_marks_error
        (modelId : string) (e : Api.JsError) (s : Store.AppState)
        (k : nat) (m : Model.t) :
  nth_error (Store.models s) k = Some m ->
  Model.id m = modelId ->
  exists m',
    nth_error
      (Store.models
         (Store.downloadModel_settled modelId (Some (Api.toString e)) s)) k
    = Some m'
    /\ Model.state m' = error
    /\ Model.error m' = Some (Api.toString e)
    /\ Model.progress m' = Model.progress m
    /\ InitPage.actions m' = [InitPage.retryButton]
    /\ InitPage.onClick m' InitPage.retryButton
       = Some (InitPage.startDownload modelId)
    /\ (Api.errName e = "Error" ->
        InitPage.errorBox m' = Some (Api.toString e)).
Proof.
  intros Hk Hid.
  exists (Store.merged m error None (Some (Api.toString e))).
  simpl; rewrite updateModels_nth, Hk; simpl.
  rewrite Hid at 1; rewrite String.eqb_refl; repeat split.
  - subst modelId; reflexivity.
  - intros Hname; unfold InitPage.errorBox.
    cbn [Store.merged Model.state Model.error ModelState_eqb JS.nullish andb].
    rewrite (toString_Error_truthy e Hname); reflexivity.
Qed.

Lemma rejected_download_marks_error_witness :
  let m := sampleModel "m1" not_downloaded None None in
  let e := Api.newError "Model not found" in
  exists m',
    nth_error
      (Store.models
         (Store.loadModel_settled "m1" (Some (Api.toString e))
                                  (registryOf [m]))) 0
    = Some m'
    /\ Model.state m' = error
    /\ Model.error m' = Some "Error: Model not found"
    /\ InitPage.errorBox m' = Some "Error: Model not found".
Proof.
  intros m e.
  destruct (rejected_download_marks_error "m1" e (registryOf [m]) 0 m
                                          eq_refl eq_refl)
    as [m' [Hk [Hst [Herr [_ [_ [_ Hbox]]]]]]].
  exists m'; exact (conj Hk (conj Hst (conj Herr (Hbox eq_refl)))).
Defined.

(** X7: the gallery is newest first: after a run of [addGeneratedImage]
    the images are the added ones in reverse order of arrival, before the
    ones that were there. *)
Theorem addGeneratedImage_newest_first
        (images : list GeneratedImage.t) (s : Store.AppState) :
  Store.generatedImages
    (fold_left (fun acc image => Store.addGeneratedImage image acc) images s)
  = rev images ++ Store.generatedImages s.
Proof.
  revert s; induction images as [|image images IH]; intros s; simpl.
  - reflexivity.
  - rewrite IH; simpl; rewrite <- app_assoc; reflexivity.
Qed.

Section GenerationMore.

Context {File : Type} (parseInt : string -> JS.number).

(** X8: a generation that was started and succeeds leaves the store idle,
    without error, with the result at the head of the gallery and the
    registry, the selection and the prompt as they were, so the same page
    can generate again at once; a previous error was cleared when it
    started. *)
Theorem generation_success_path
        (p : GeneratePage.PageState File) (s s1 : Store.AppState)
        (c : GeneratePage.ApiCall File) (image : GeneratedImage.t) :
  GeneratePage.handleGenerate parseInt p s = (s1, Some c) ->
  let s2 := GeneratePage.handleGenerate_settled (inl image) s1 in
  Store.generationError s1 = None
  /\ Store.isGenerating s2 = false
  /\ Store.generationError s2 = None
  /\ Store.generatedImages s2 = image :: Store.generatedImages s
  /\ Store.models s2 = Store.models s
  /\ Store.selectedModelId s2 = Store.selectedModelId s
  /\ Store.currentPrompt s2 = Store.currentPrompt s
  /\ GeneratePage.canGenerate p s2 = true.
Proof.
  intros H s2; subst s2.
  destruct (handleGenerate_canGenerate parseInt p s s1 c H) as [Hcan ->].
  repeat split.
  rewrite <- Hcan; unfold GeneratePage.canGenerate; simpl.
  rewrite (canGenerate_idle p s Hcan); reflexivity.
Qed.

(** X9: [handleGenerate] does not read the registry: with any other list
    of models it takes the same decision and issues the same request, so a
    request goes out for the selected id whether or not the registry holds a
    ready record of it. *)
Theorem handleGenerate_ignores_registry
        (p : GeneratePage.PageState File) (ms : list Model.t)
        (s : Store.AppState) :
  GeneratePage.handleGenerate parseInt p (Store.with_models ms s)
  = (Store.with_models ms (fst (GeneratePage.handleGenerate parseInt p s)),
     snd (GeneratePage.handleGenerate parseInt p s)).
Proof.
  unfold GeneratePage.handleGenerate; simpl.
  destruct (negb (JS.nonEmpty (JS.trim (Store.currentPrompt s)))
            || negb (JS.truthy (Store.selectedModelId s))
            || Store.isGenerating s); [reflexivity|].
  destruct (GeneratePage.isImg2img (GeneratePage.mode p)
            && GeneratePage.isNull (GeneratePage.referenceImage p));
    reflexivity.
Qed.

(** X10: the request depends on the mode.  In text mode it is the same for
    two page states that agree on width, height, steps, guidance, seed and
    negative prompt, whatever their reference image and strength; in image
    mode it is the same for two that agree on reference image, steps,
    strength and seed, whatever their width, height, guidance and negative
    prompt. *)
Theorem handleGenerate_reads_mode_fields
        (p p' : GeneratePage.PageState File) (s : Store.AppState) :
  GeneratePage.mode p = GeneratePage.mode p' ->
  GeneratePage.steps _ p = GeneratePage.steps _ p' ->
  GeneratePage.seed _ p = GeneratePage.seed _ p' ->
  match GeneratePage.mode p with
  | GeneratePage.txt2img =>
      GeneratePage.width _ p = GeneratePage.width _ p'
      /\ GeneratePage.height _ p = GeneratePage.height _ p'
      /\ GeneratePage.guidance _ p = GeneratePage.guidance _ p'
      /\ GeneratePage.negativePrompt _ p = GeneratePage.negativePrompt _ p'
  | GeneratePage.img2img =>
      GeneratePage.referenceImage p = GeneratePage.referenceImage p'
      /\ GeneratePage.imageStrength _ p = GeneratePage.imageStrength _ p'
  end ->
  GeneratePage.handleGenerate parseInt p s
  = GeneratePage.handleGenerate parseInt p' s.
Proof.
  intros Hmode Hsteps Hseed Hrest; unfold GeneratePage.handleGenerate.
  rewrite <- Hmode, <- Hsteps, <- Hseed.
  destruct (GeneratePage.mode p).
  - destruct Hrest as [-> [-> [-> ->]]]; simpl.
    destruct (GeneratePage.referenceImage p), (GeneratePage.referenceImage p');
      reflexivity.
  - destruct Hrest as [<- <-].
    destruct (negb (JS.nonEmpty (JS.trim (Store.currentPrompt s)))
              || negb (JS.truthy (Store.selectedModelId s))
              || Store.isGenerating s); [reflexivity|].
    destruct (GeneratePage.referenceImage p); reflexivity.
Qed.

(** X11: a key press issues a request exactly when the key is Enter with
    the meta or the control key held and [canGenerate] holds, and then does
    what [handleGenerate] does; every other key press leaves the store as it
    is and issues nothing. *)
Theorem handleKeyDown_guard
        (e : GeneratePageHandlers.KeyboardEvent)
        (p : GeneratePage.PageState File) (s : Store.AppState) :
  if (GeneratePageHandlers.key e =? "Enter")
     && (GeneratePageHandlers.metaKey e || GeneratePageHandlers.ctrlKey e)
     && GeneratePage.canGenerate p s
  then exists c,
      GeneratePageHandlers.handleKeyDown parseInt e p s
      = (GeneratePage.begun s, Some c)
      /\ GeneratePage.handleGenerate parseInt p s
         = (GeneratePage.begun s, Some c)
  else GeneratePageHandlers.handleKeyDown parseInt e p s = (s, None).
Proof.
  unfold GeneratePageHandlers.handleKeyDown.
  destruct ((GeneratePageHandlers.key e =? "Enter")
            && (GeneratePageHandlers.metaKey e
                || GeneratePageHandlers.ctrlKey e)); simpl; [|reflexivity].
  destruct (GeneratePage.canGenerate p s) eqn:Hcan.
  - destruct (handleGenerate_started parseInt p s Hcan) as [c [Hc _]].
    exists c; split; exact Hc.
  - apply handleGenerate_refused; exact Hcan.
Qed.

End GenerationMore.

Lemma generation_success_path_witness :
  let s := Store.setGenerationError (Some "boom") (sampleStore "a cat") in
  let image :=
    {| GeneratedImage.image_id := "i1";
       GeneratedImage.image_url := "/api/images/i1";
       GeneratedImage.image_base64 := None;
       GeneratedImage.prompt := JS.lit "a cat";
       GeneratedImage.model_id := "m1";
       GeneratedImage.width := 1024%float;
       GeneratedImage.height := 1024%float;
       GeneratedImage.seed := 7%float;
       GeneratedImage.generation_time := 20%float |} in
  let s2 := GeneratePage.handleGenerate_settled
              (inl image) (GeneratePage.begun s) in
  Store.generationError s2 = None
  /\ Store.generatedImages s2 = [image]
  /\ GeneratePage.canGenerate samplePage s2 = true.
Proof.
  intros s image s2.
  destruct (generation_success_path
              noParse samplePage s (GeneratePage.begun s)
              (sampleCall "a cat") image eq_refl)
    as [_ [_ [Herr [Himg [_ [_ [_ Hcan]]]]]]].
  exact (conj Herr (conj Himg Hcan)).
Defined.

Lemma handleGenerate_reads_mode_fields_witness :
  let p' := GeneratePageHandlers.setReferenceImage (Some tt) samplePage in
  GeneratePage.handleGenerate noParse samplePage (sampleStore "a cat")
  = GeneratePage.handleGenerate noParse p' (sampleStore "a cat").
Proof.
  intros p'.
  apply (handleGenerate_reads_mode_fields noParse samplePage p');
    try reflexivity.
  simpl; repeat split.
Defined.

(** A string without surrogate code units is its own USVString. *)
Lemma toUSVString_scalar (s : JS.jsstring) :
  forallb (fun u => negb (JS.isLeadSurrogate u || JS.isTrailSurrogate u)) s
  = true ->
  JS.toUSVString s = s.
Proof.
  induction s as [|c r IH]; simpl; [reflexivity|].
  rewrite andb_true_iff, negb_true_iff, orb_false_iff.
  intros [[-> ->] Hr]; rewrite (IH Hr); reflexivity.
Qed.

Section ReferenceFacts.

Context {File : Type} (parseInt : string -> JS.number).

(** X12: a file dialog that is cancelled leaves the reference image and
    its preview as they are; a chosen file becomes the reference image, the
    first one when several are chosen.  After [handleRemoveReference] there is
    no reference image and no preview, and in image mode [handleGenerate]
    issues nothing until a file is chosen again. *)
Theorem reference_image_handlers
        (r : GeneratePageHandlers.Reference File) (s : Store.AppState) :
  GeneratePageHandlers.handleImageSelect [] r = (r, None)
  /\ (forall file rest,
         GeneratePage.referenceImage
           (GeneratePageHandlers.pageState
              (fst (GeneratePageHandlers.handleImageSelect (file :: rest) r)))
         = Some file
         /\ snd (GeneratePageHandlers.handleImageSelect (file :: rest) r)
            = Some file)
  /\ GeneratePageHandlers.referencePreview
       (GeneratePageHandlers.handleRemoveReference r) = None
  /\ (GeneratePage.mode (GeneratePageHandlers.pageState r)
      = GeneratePage.img2img ->
      GeneratePage.handleGenerate
        parseInt
        (GeneratePageHandlers.pageState
           (GeneratePageHandlers.handleRemoveReference r)) s
      = (s, None)).
Proof.
  repeat split.
  intros Hmode; apply handleGenerate_refused.
  unfold GeneratePage.canGenerate; simpl; rewrite Hmode; simpl.
  apply andb_false_r.
Qed.

Variable numberToString : JS.number -> string.
Variable toUSV : string -> string.

Lemma img2imgForm_keys (prompt : JS.jsstring) (image : File)
      (options : GeneratePage.Img2ImgOptions) :
  map fst (Api.img2imgForm numberToString toUSV prompt image options)
  = ["prompt"; "image"]
      ++ (if JS.truthy (GeneratePage.model_id options)
          then ["model_id"] else [])
      ++ (if GeneratePage.isNull (GeneratePage.num_inference_steps options)
          then [] else ["num_inference_steps"])
      ++ (if GeneratePage.isNull (GeneratePage.image_strength options)
          then [] else ["image_strength"])
      ++ (if GeneratePage.isNull (GeneratePage.img_seed options)
          then [] else ["seed"]).
Proof.
  unfold Api.img2imgForm; rewrite !map_app.
  destruct (JS.truthy (GeneratePage.model_id options)),
    (GeneratePage.num_inference_steps options),
    (GeneratePage.image_strength options),
    (GeneratePage.img_seed options); reflexivity.
Qed.

(** X13: the form [generateImg2Img] posts has no key twice, whatever the
    options, and starts with the prompt and the image.  For the request
    [handleGenerate] issues in image mode it holds, in this order, prompt,
    image, model_id, num_inference_steps and image_strength, then seed exactly
    when the seed field of the page is not empty.  The prompt it holds is the
    current prompt converted to a USVString, which is the current prompt
    itself when that has no surrogate code unit; the model id is the selected
    one, converted.  In text mode no form is posted. *)
Theorem img2img_form_fields
        (p : GeneratePage.PageState File) (s s1 : Store.AppState)
        (c : GeneratePage.ApiCall File) :
  GeneratePage.handleGenerate parseInt p s = (s1, Some c) ->
  (forall prompt (image : File) options,
      NoDup (map fst (Api.img2imgForm numberToString toUSV prompt image options)))
  /\ match GeneratePage.mode p with
     | GeneratePage.txt2img => Api.formOf numberToString toUSV c = None
     | GeneratePage.img2img =>
         exists form image i,
           Api.formOf numberToString toUSV c = Some form
           /\ GeneratePage.referenceImage p = Some image
           /\ Store.selectedModelId s = Some i
           /\ map fst form
              = ["prompt"; "image"; "model_id"; "num_inference_steps";
                 "image_strength"]
                  ++ (if GeneratePage.seed _ p =? "" then [] else ["seed"])
           /\ In ("prompt",
                  Api.unitsValue (JS.toUSVString (Store.currentPrompt s))) form
           /\ (forallb (fun u => negb (JS.isLeadSurrogate u
                                       || JS.isTrailSurrogate u))
                       (Store.currentPrompt s) = true ->
               In ("prompt", Api.unitsValue (Store.currentPrompt s)) form)
           /\ In ("image", Api.fileValue image) form
           /\ In ("model_id", Api.textValue (toUSV i)) form
     end.
Proof.
  intros H; split.
  - intros prompt image options; rewrite img2imgForm_keys.
    destruct (JS.truthy (GeneratePage.model_id options)),
      (GeneratePage.isNull (GeneratePage.num_inference_steps options)),
      (GeneratePage.isNull (GeneratePage.image_strength options)),
      (GeneratePage.isNull (GeneratePage.img_seed options)); simpl;
      repeat (constructor; [simpl; intuition discriminate|]); constructor.
  - destruct (handleGenerate_canGenerate parseInt p s s1 c H) as [Hcan _].
    destruct (canGenerate_parts p s Hcan) as [_ [_ [Hm Href]]].
    unfold GeneratePage.handleGenerate in H.
    destruct (negb (JS.nonEmpty (JS.trim (Store.currentPrompt s)))
              || negb (JS.truthy (Store.selectedModelId s))
              || Store.isGenerating s); [discriminate|].
    destruct (GeneratePage.isImg2img (GeneratePage.mode p)
              && GeneratePage.isNull (GeneratePage.referenceImage p));
      [discriminate|].
    injection H as _ <-.
    destruct (GeneratePage.mode p) eqn:Hmode.
    + destruct (GeneratePage.referenceImage p); reflexivity.
    + destruct (GeneratePage.referenceImage p) as [image|] eqn:Himg;
        [|exfalso; exact (Href eq_refl eq_refl)].
      destruct (Store.selectedModelId s) as [i|] eqn:Hsel; [|discriminate].
      eexists; exists image, i; split; [reflexivity|].
      split; [reflexivity|]; split; [reflexivity|].
      rewrite img2imgForm_keys; cbn -[String.eqb].
      simpl in Hm; rewrite Hm; unfold GeneratePage.seedOf.
      destruct (GeneratePage.seed File p =? ""); simpl;
        repeat split; auto 10;
        intros Hscalar; rewrite (toUSVString_scalar _ Hscalar); auto.
Qed.

End ReferenceFacts.

Lemma reference_image_handlers_witness :
  GeneratePage.handleGenerate
    noParse
    (GeneratePageHandlers.pageState
       (GeneratePageHandlers.handleRemoveReference sampleReference))
    (sampleStore "a cat")
  = (sampleStore "a cat", None)
  /\ GeneratePage.canGenerate samplePageImg (sampleStore "a cat") = true.
Proof.
  split; [|reflexivity].
  apply (proj2 (proj2 (proj2 (reference_image_handlers
                                noParse sampleReference
                                (sampleStore "a cat"))))).
  reflexivity.
Defined.

Lemma img2img_form_fields_witness :
  exists form,
    Api.formOf noText (fun text => text)
      (GeneratePage.generateImg2Img
         (JS.lit "a cat") tt
         {| GeneratePage.model_id := Some "m1";
            GeneratePage.num_inference_steps := Some 8%float;
            GeneratePage.image_strength := Some 0x1.6666666666666p-1%float;
            GeneratePage.img_seed := None |})
    = Some form
    /\ map fst form
       = ["prompt"; "image"; "model_id"; "num_inference_steps";
          "image_strength"].
Proof.
  destruct (img2img_form_fields
              noParse noText (fun text => text) samplePageImg
              (sampleStore "a cat")
              (GeneratePage.begun (sampleStore "a cat")) _ eq_refl)
    as [_ [form [image [i [Hform [_ [_ [Hkeys _]]]]]]]].
  exists form; split; [exact Hform | exact Hkeys].
Defined.

(** * Further properties of the message dispatch *)

Lemma handleWebSocketMessage_models (message : WebSocketMessage)
      (s : Store.AppState) :
  fst (App.handleWebSocketMessage message s)
  = Store.with_models
      (Store.models (fst (App.handleWebSocketMessage message s))) s
  /\ map Model.id (Store.models (fst (App.handleWebSocketMessage message s)))
     = map Model.id (Store.models s).
Proof.
  destruct message; simpl; try (split; [symmetry; apply with_models_same|];
                                reflexivity).
  split; [reflexivity | apply updateModels_ids].
Qed.

(** The handlers of a sequence of messages change only the records of the
    registry, and keep their ids and order. *)
Lemma deliver_changes_only_models
        (msgs : list WebSocketMessage) (s : Store.AppState) :
  App.deliver msgs s = Store.with_models (Store.models (App.deliver msgs s)) s
  /\ map Model.id (Store.models (App.deliver msgs s))
     = map Model.id (Store.models s).
Proof.
  unfold App.deliver; revert s.
  induction msgs as [|message msgs IH]; intros s; simpl.
  - split; [symmetry; apply with_models_same | reflexivity].
  - destruct (handleWebSocketMessage_models message s) as [Hs Hids].
    destruct (IH (fst (App.handleWebSocketMessage message s))) as [IHs IHids].
    split; [|rewrite IHids; exact Hids].
    rewrite IHs at 1; rewrite Hs at 2; reflexivity.
Qed.

Lemma dispatch_store (msgs : list WebSocketMessage) (s : Store.AppState) :
  fst (App.dispatch msgs s) = App.deliver msgs s.
Proof.
  unfold App.deliver; revert s.
  induction msgs as [|message msgs IH]; intros s; simpl;
    [reflexivity | apply IH].
Qed.

Lemma dispatch_fetches (msgs : list WebSocketMessage) (s : Store.AppState) :
  snd (App.dispatch msgs s)
  = map (fun _ => App.fetchModels) (filter App.isInitialState msgs).
Proof.
  revert s; induction msgs as [|message msgs IH]; intros s; simpl;
    [reflexivity|].
  rewrite IH; destruct message; reflexivity.
Qed.

(** X14: when the handlers of a sequence of WebSocket messages have
    returned and no fetch has settled yet, nothing in the store has changed
    but the records of the registry: their ids and order, the selection, the
    generation state, the gallery and the connection state are as before.
    The only other thing the messages do is start [fetchModels], once for each
    [initial_state] message and for no other message; the registry is
    replaced, and the selection possibly set, only when such a fetch settles
    and calls [setModels]. *)
Theorem dispatch_changes_only_records
        (msgs : list WebSocketMessage) (s : Store.AppState) :
  fst (App.dispatch msgs s)
  = Store.with_models (Store.models (fst (App.dispatch msgs s))) s
  /\ map Model.id (Store.models (fst (App.dispatch msgs s)))
     = map Model.id (Store.models s)
  /\ snd (App.dispatch msgs s)
     = map (fun _ => App.fetchModels) (filter App.isInitialState msgs)
  /\ (forall ms,
         Store.fetchModels_settled (Some ms) (fst (App.dispatch msgs s))
         = Store.setModels ms (fst (App.dispatch msgs s))).
Proof.
  rewrite dispatch_store.
  destruct (deliver_changes_only_models msgs s) as [Hs Hids].
  split; [exact Hs|]; split; [exact Hids|]; split;
    [apply dispatch_fetches | reflexivity].
Qed.

(** * Further properties of the model cards *)

(** X15: the action row of a card holds exactly one element in every
    state.  A click starts a download only from [not_downloaded] and from
    [error], and a load only from [downloaded]; in [downloading], [loading]
    and [ready] the row offers nothing to click. *)
Theorem card_has_one_action (model : Model.t) :
  exists a,
    InitPage.actions model = [a]
    /\ InitPage.onClick model a
       = match Model.state model with
         | not_downloaded | error =>
             Some (InitPage.startDownload (Model.id model))
         | downloaded => Some (InitPage.startLoad (Model.id model))
         | downloading | loading | ready => None
         end.
Proof.
  unfold InitPage.actions; destruct (Model.state model); simpl;
    eexists; split; reflexivity.
Qed.

(** X16: the error box of a card shows the message only in state [error].
    Since an update without error keeps the old message, a message that was
    hidden by a later non-error update is shown again, as it was, by the
    next [error] update that carries no message of its own. *)
Theorem stale_error_message_reappears
        (m : Model.t) (message : string) (st : ModelState)
        (p p' : option DownloadProgress) :
  Model.error m = Some message ->
  message <> "" ->
  st <> error ->
  let recovered := Store.merged m st p None in
  let failed := Store.merged recovered error p' None in
  InitPage.errorBox recovered = None
  /\ Model.error recovered = Some message
  /\ InitPage.errorBox failed = Some message.
Proof.
  intros Herr Hmsg Hst recovered failed; subst recovered failed.
  unfold InitPage.errorBox; simpl; rewrite Herr; simpl.
  destruct (String.eqb_spec message "") as [|_]; [contradiction|].
  destruct st; try contradiction; repeat split.
Qed.

Lemma stale_error_message_reappears_witness :
  let m := sampleModel "m3" error None (Some "disk full") in
  InitPage.errorBox (Store.merged m downloading (Some halfway) None) = None
  /\ InitPage.errorBox
       (Store.merged (Store.merged m downloading (Some halfway) None)
                     error None None)
     = Some "disk full".
Proof.
  intros m.
  destruct (stale_error_message_reappears
              m "disk full" downloading (Some halfway) None)
    as [Hhidden [_ Hshown]];
    [reflexivity | discriminate | discriminate |].
  exact (conj Hhidden Hshown).
Defined.

(** * Further properties of the WebSocket session *)

Lemma setReadyState_length (k : nat) (r : UseWebSocket.ReadyState)
      (l : list UseWebSocket.ReadyState) :
  List.length (UseWebSocket.setReadyState k r l) = List.length l.
Proof.
  revert k; induction l as [|x l IH]; intros [|k]; simpl;
    try reflexivity; rewrite IH; reflexivity.
Qed.

Lemma setReadyState_other (k j : nat) (r : UseWebSocket.ReadyState)
      (l : list UseWebSocket.ReadyState) :
  j <> k ->
  nth_error (UseWebSocket.setReadyState k r l) j = nth_error l j.
Proof.
  revert k j; induction l as [|x l IH]; intros [|k] [|j] Hne; simpl;
    try reflexivity; [contradiction | apply IH; congruence].
Qed.

Lemma setReadyState_same (k : nat) (r x : UseWebSocket.ReadyState)
      (l : list UseWebSocket.ReadyState) :
  nth_error l k = Some x ->
  nth_error (UseWebSocket.setReadyState k r l) k = Some r.
Proof.
  revert k; induction l as [|y l IH]; intros [|k]; simpl;
    try discriminate; [reflexivity | apply IH].
Qed.

Lemma nth_error_last {A : Type} (l : list A) (a : A) :
  nth_error (l ++ [a]) (List.length l) = Some a.
Proof.
  rewrite nth_error_app2 by apply Nat.le_refl.
  rewrite Nat.sub_diag; reflexivity.
Qed.


Lemma closeSocket_fields (k : nat) (h : UseWebSocket.Hook) :
  UseWebSocket.closeSocket k h
  = UseWebSocket.with_sockets
      (UseWebSocket.sockets (UseWebSocket.closeSocket k h)) h.
Proof.
  unfold UseWebSocket.closeSocket.
  destruct (nth_error (UseWebSocket.sockets h) k) as [[| | |]|];
    destruct h; reflexivity.
Qed.

Lemma closeSocket_sockets (k : nat) (h : UseWebSocket.Hook) :
  (forall j, j <> k ->
             nth_error (UseWebSocket.sockets (UseWebSocket.closeSocket k h)) j
             = nth_error (UseWebSocket.sockets h) j)
  /\ (nth_error (UseWebSocket.sockets h) k = Some UseWebSocket.OPEN
      \/ nth_error (UseWebSocket.sockets h) k = Some UseWebSocket.CONNECTING ->
      nth_error (UseWebSocket.sockets (UseWebSocket.closeSocket k h)) k
      = Some UseWebSocket.CLOSING).
Proof.
  unfold UseWebSocket.closeSocket; split.
  - intros j Hj.
    destruct (nth_error (UseWebSocket.sockets h) k) as [[| | |]|]; simpl;
      try reflexivity; apply setReadyState_other; exact Hj.
  - intros [Hopen | Hconn].
    + rewrite Hopen; simpl; apply (setReadyState_same _ _ _ _ Hopen).
    + rewrite Hconn; simpl; apply (setReadyState_same _ _ _ _ Hconn).
Qed.

(** X18: [disconnect] clears both refs and is idempotent.  It starts the
    close of the socket the ref held, when that one is open or connecting,
    and leaves every other socket alone; it does not set [isConnected] and
    calls no callback of the owner. *)
Theorem disconnect_effect (h : UseWebSocket.Hook) :
  UseWebSocket.wsRef (UseWebSocket.disconnect h) = None
  /\ UseWebSocket.reconnectTimeoutRef (UseWebSocket.disconnect h) = None
  /\ UseWebSocket.disconnect (UseWebSocket.disconnect h)
     = UseWebSocket.disconnect h
  /\ UseWebSocket.isConnected (UseWebSocket.disconnect h)
     = UseWebSocket.isConnected h
  /\ UseWebSocket.fired (UseWebSocket.disconnect h) = UseWebSocket.fired h
  /\ (forall k,
         UseWebSocket.wsRef h = Some k ->
         (forall j, j <> k ->
                    nth_error (UseWebSocket.sockets (UseWebSocket.disconnect h)) j
                    = nth_error (UseWebSocket.sockets h) j)
         /\ (nth_error (UseWebSocket.sockets h) k = Some UseWebSocket.OPEN
             \/ nth_error (UseWebSocket.sockets h) k
                = Some UseWebSocket.CONNECTING ->
             nth_error (UseWebSocket.sockets (UseWebSocket.disconnect h)) k
             = Some UseWebSocket.CLOSING)).
Proof.
  assert (Hws : UseWebSocket.wsRef (UseWebSocket.disconnect h) = None).
  { unfold UseWebSocket.disconnect.
    destruct (UseWebSocket.reconnectTimeoutRef h); simpl;
      destruct (UseWebSocket.wsRef h) eqn:Hw; simpl; try reflexivity;
      exact Hw. }
  assert (Href : UseWebSocket.reconnectTimeoutRef (UseWebSocket.disconnect h)
                 = None) by apply disconnect_cancels.
  split; [exact Hws|]; split; [exact Href|]; split; [|split; [|split]].
  - unfold UseWebSocket.disconnect at 1; rewrite Href, Hws; reflexivity.
  - unfold UseWebSocket.disconnect.
    destruct (UseWebSocket.reconnectTimeoutRef h); simpl;
      destruct (UseWebSocket.wsRef h) as [k|]; simpl; try reflexivity;
      rewrite closeSocket_fields; reflexivity.
  - unfold UseWebSocket.disconnect.
    destruct (UseWebSocket.reconnectTimeoutRef h); simpl;
      destruct (UseWebSocket.wsRef h) as [k|]; simpl; try reflexivity;
      rewrite closeSocket_fields; reflexivity.
  - intros k Hk; unfold UseWebSocket.disconnect.
    destruct (UseWebSocket.reconnectTimeoutRef h) as [t|]; simpl;
      rewrite Hk; simpl.
    + apply (closeSocket_sockets
               k (UseWebSocket.with_reconnectTimeoutRef
                    None (UseWebSocket.clearTimeout t h))).
    + apply (closeSocket_sockets k h).
Qed.

Lemma disconnect_effect_witness :
  UseWebSocket.sockets (UseWebSocket.disconnect connected)
  = [UseWebSocket.CLOSING]
  /\ UseWebSocket.isConnected (UseWebSocket.disconnect connected) = true.
Proof.
  destruct (disconnect_effect connected) as [_ [_ [_ [Hc [_ Hs]]]]].
  destruct (Hs 0 eq_refl) as [_ Hclosing].
  split; [|rewrite Hc; reflexivity].
  specialize (Hclosing (or_introl eq_refl)).
  destruct (UseWebSocket.sockets (UseWebSocket.disconnect connected))
    as [|x [|y l]] eqn:Hl; try discriminate.
  injection Hclosing as ->; reflexivity.
Defined.

Section SessionMore.

Variable interval : option JS.number.
Variable urlAccepted : bool.

(** X19: while the owner is unmounted, an open event, a close event, a
    timeout that runs and a call of [reconnect] reach neither the state of the
    hook nor the owner: no callback is called, [isConnected], the refs and the
    error are as before, no socket is constructed and no timeout is
    scheduled. *)
Theorem unmounted_events_are_inert
        (e : UseWebSocket.Event) (h : UseWebSocket.Hook) :
  UseWebSocket.mountedRef h = false ->
  match e with
  | UseWebSocket.Open _
  | UseWebSocket.Close _ _
  | UseWebSocket.Timeout _
  | UseWebSocket.Reconnect =>
      let h' := UseWebSocket.step interval urlAccepted e h in
      UseWebSocket.fired h' = UseWebSocket.fired h
      /\ UseWebSocket.isConnected h' = UseWebSocket.isConnected h
      /\ UseWebSocket.connectionError h' = UseWebSocket.connectionError h
      /\ UseWebSocket.wsRef h' = UseWebSocket.wsRef h
      /\ UseWebSocket.reconnectTimeoutRef h' = UseWebSocket.reconnectTimeoutRef h
      /\ UseWebSocket.mountedRef h' = false
      /\ List.length (UseWebSocket.sockets h')
         = List.length (UseWebSocket.sockets h)
      /\ incl (UseWebSocket.handles h') (UseWebSocket.handles h)
  | _ => True
  end.
Proof.
  intros Hm; destruct e; simpl; trivial.
  - unfold UseWebSocket.connect; rewrite Hm; simpl.
    repeat split; try assumption; apply incl_refl.
  - unfold UseWebSocket.onopen; simpl; rewrite Hm; simpl.
    rewrite setReadyState_length.
    repeat split; try assumption; apply incl_refl.
  - unfold UseWebSocket.onclose; simpl; rewrite Hm; simpl.
    rewrite setReadyState_length.
    repeat split; try assumption; apply incl_refl.
  - destruct (UseWebSocket.pending t h);
      [|repeat split; try assumption; apply incl_refl].
    unfold UseWebSocket.reconnectCallback; simpl; rewrite Hm.
    repeat split; try assumption; apply clearTimeout_handles.
Qed.

(** X20: the frames of a socket reach the owner in order, each one that
    parses exactly once and each one that does not parse not at all, whether
    or not the owner is mounted; frames change nothing else in the hook. *)
Theorem frames_delivered_in_order
        (k : nat) (frames : list (option WebSocketMessage))
        (h : UseWebSocket.Hook) :
  let h' := UseWebSocket.run interval urlAccepted
              (map (UseWebSocket.Message k) frames) h in
  UseWebSocket.fired h'
  = UseWebSocket.fired h ++ map UseWebSocket.onMessage (parsedFrames frames)
  /\ UseWebSocket.isConnected h' = UseWebSocket.isConnected h
  /\ UseWebSocket.connectionError h' = UseWebSocket.connectionError h
  /\ UseWebSocket.wsRef h' = UseWebSocket.wsRef h
  /\ UseWebSocket.sockets h' = UseWebSocket.sockets h
  /\ UseWebSocket.timeouts h' = UseWebSocket.timeouts h
  /\ UseWebSocket.reconnectTimeoutRef h' = UseWebSocket.reconnectTimeoutRef h
  /\ UseWebSocket.sent h' = UseWebSocket.sent h.
Proof.
  simpl; revert h; induction frames as [|frame frames IH]; intros h.
  - simpl; rewrite app_nil_r; repeat split.
  - cbn [map UseWebSocket.run fold_left UseWebSocket.step].
    fold (UseWebSocket.run interval urlAccepted
            (map (UseWebSocket.Message k) frames)
            (UseWebSocket.onmessage frame h)).
    destruct (IH (UseWebSocket.onmessage frame h))
      as [Hf [Hc [He [Hw [Hs [Ht [Hr Hsent]]]]]]].
    rewrite Hf, Hc, He, Hw, Hs, Ht, Hr, Hsent.
    destruct frame as [message|]; simpl; repeat split.
    rewrite <- app_assoc; reflexivity.
Qed.

End SessionMore.

Lemma unmounted_events_are_inert_witness :
  let h := UseWebSocket.unmount connected in
  UseWebSocket.fired
    (UseWebSocket.step None true (UseWebSocket.Close 0 1006) h)
  = UseWebSocket.fired h
  /\ UseWebSocket.handles
       (UseWebSocket.step None true (UseWebSocket.Close 0 1006) h) = [].
Proof.
  intros h.
  destruct (unmounted_events_are_inert
              None true (UseWebSocket.Close 0 1006) h eq_refl)
    as [Hf [_ [_ [_ [_ [_ [_ Hincl]]]]]]].
  split; [exact Hf|].
  destruct (UseWebSocket.handles
              (UseWebSocket.step None true (UseWebSocket.Close 0 1006) h))
    as [|t l]; [reflexivity|].
  destruct (Hincl t (or_introl eq_refl)).
Defined.

(** What holds of a hook whose url the constructor rejects. *)
Lemma rejected_url_step (interval : option JS.number)
      (e : UseWebSocket.Event) (h : UseWebSocket.Hook) :
  wellFormed e h = true ->
  UseWebSocket.sockets h = [] ->
  UseWebSocket.timeouts h = [] ->
  UseWebSocket.sent h = [] ->
  UseWebSocket.isConnected h = false ->
  UseWebSocket.wsRef h = None ->
  let h' := UseWebSocket.step interval false e h in
  UseWebSocket.sockets h' = []
  /\ UseWebSocket.timeouts h' = []
  /\ UseWebSocket.sent h' = []
  /\ UseWebSocket.isConnected h' = false
  /\ UseWebSocket.wsRef h' = None.
Proof.
  intros Hwf Hs Ht Hsent Hc Hw; destruct e; simpl in *;
    try (rewrite Hs in Hwf; discriminate).
  - unfold UseWebSocket.mount, UseWebSocket.connect, UseWebSocket.readyState.
    simpl; rewrite Hw; repeat split; assumption.
  - unfold UseWebSocket.unmount, UseWebSocket.disconnect,
      UseWebSocket.clearTimeout.
    simpl; destruct (UseWebSocket.reconnectTimeoutRef h); simpl; rewrite Hw;
      simpl; rewrite ?Ht; repeat split; assumption.
  - unfold UseWebSocket.connect, UseWebSocket.readyState; rewrite Hw.
    destruct (UseWebSocket.mountedRef h); simpl; repeat split; assumption.
  - unfold UseWebSocket.pending; rewrite Ht; simpl; repeat split; assumption.
  - unfold UseWebSocket.send; rewrite Hw; repeat split; assumption.
Qed.

(** X21: when the constructor rejects the url, the mount records the
    error Failed to create WebSocket connection and nothing retries: over
    every sequence of events that can follow there is no socket, no pending
    timeout, nothing sent, and [isConnected] stays false. *)
Theorem rejected_url_never_connects
        (interval : option JS.number) (es : list UseWebSocket.Event) :
  wellFormedRun interval false es
                (UseWebSocket.mount false UseWebSocket.initial) = true ->
  let h := UseWebSocket.run interval false es
             (UseWebSocket.mount false UseWebSocket.initial) in
  UseWebSocket.connectionError
    (UseWebSocket.mount false UseWebSocket.initial)
  = Some "Failed to create WebSocket connection"
  /\ UseWebSocket.sockets h = []
  /\ UseWebSocket.timeouts h = []
  /\ UseWebSocket.sent h = []
  /\ UseWebSocket.isConnected h = false
  /\ UseWebSocket.wsRef h = None.
Proof.
  intros Hwf h; split; [reflexivity|]; subst h.
  assert (Hinv : forall es h0,
             wellFormedRun interval false es h0 = true ->
             UseWebSocket.sockets h0 = [] /\ UseWebSocket.timeouts h0 = []
             /\ UseWebSocket.sent h0 = []
             /\ UseWebSocket.isConnected h0 = false
             /\ UseWebSocket.wsRef h0 = None ->
             let h := UseWebSocket.run interval false es h0 in
             UseWebSocket.sockets h = [] /\ UseWebSocket.timeouts h = []
             /\ UseWebSocket.sent h = []
             /\ UseWebSocket.isConnected h = false
             /\ UseWebSocket.wsRef h = None).
  { clear; induction es as [|e es IH]; intros h0 Hwf Hinv; [exact Hinv|].
    simpl in Hwf; apply andb_true_iff in Hwf; destruct Hwf as [He Hes].
    destruct Hinv as [Hs [Ht [Hsent [Hc Hw]]]].
    apply (IH (UseWebSocket.step interval false e h0) Hes).
    apply rejected_url_step; assumption. }
  apply (Hinv es _ Hwf); repeat split.
Qed.

Lemma rejected_url_never_connects_witness :
  let h := UseWebSocket.run None false
             [UseWebSocket.Reconnect; UseWebSocket.Send "ping";
              UseWebSocket.Unmount; UseWebSocket.Mount;
              UseWebSocket.Timeout 1]
             (UseWebSocket.mount false UseWebSocket.initial) in
  UseWebSocket.sockets h = [] /\ UseWebSocket.timeouts h = []
  /\ UseWebSocket.sent h = [].
Proof.
  intros h.
  destruct (rejected_url_never_connects
              None
              [UseWebSocket.Reconnect; UseWebSocket.Send "ping";
               UseWebSocket.Unmount; UseWebSocket.Mount;
               UseWebSocket.Timeout 1] eq_refl)
    as [_ [Hs [Ht [Hsent _]]]].
  exact (conj Hs (conj Ht Hsent)).
Defined.

(** The state after the timeout of an ungraceful close has run. *)
Lemma scheduled_timeout_state
      (interval : option JS.number) (code : N) (h : UseWebSocket.Hook) :
  code <> 1000%N ->
  UseWebSocket.mountedRef h = true ->
  let h2 := UseWebSocket.step interval true
              (UseWebSocket.Timeout (UseWebSocket.nextHandle h))
              (UseWebSocket.onclose interval code h) in
  UseWebSocket.sockets h2
  = UseWebSocket.sockets h ++ [UseWebSocket.CONNECTING]
  /\ UseWebSocket.wsRef h2 = Some (List.length (UseWebSocket.sockets h)).
Proof.
  intros Hcode Hm.
  destruct (onclose_ungraceful interval code h Hcode Hm)
    as [Ht [_ [Hws [Hm' Hs]]]].
  unfold UseWebSocket.step, UseWebSocket.pending; rewrite Ht, existsb_app.
  simpl; rewrite Pos.eqb_refl, orb_true_r.
  unfold UseWebSocket.reconnectCallback, UseWebSocket.connect; simpl.
  rewrite Hm'; simpl.
  unfold UseWebSocket.readyState; simpl; rewrite Hws, Hs; split; reflexivity.
Qed.

(** A close event that finds the owner mounted. *)
Lemma onclose_mounted (interval : option JS.number) (code : N)
      (h : UseWebSocket.Hook) :
  UseWebSocket.mountedRef h = true ->
  UseWebSocket.wsRef (UseWebSocket.onclose interval code h) = None
  /\ UseWebSocket.isConnected (UseWebSocket.onclose interval code h) = false
  /\ UseWebSocket.fired (UseWebSocket.onclose interval code h)
     = UseWebSocket.fired h ++ [UseWebSocket.onDisconnect].
Proof.
  intros Hm; unfold UseWebSocket.onclose; rewrite Hm; simpl.
  destruct (negb (code =? 1000)%N); simpl; [rewrite Hm; simpl|];
    repeat split.
Qed.

(** X22: the close handler does not look at which socket closed.  When a
    socket other than the current one closes ungracefully while the owner is
    mounted and the current socket is open, the handler clears the ref and
    reports the disconnect all the same, and the timeout it schedules then
    constructs a further socket: the open socket is still open, the ref
    points to the new connecting one, and [send] drops its message. *)
Theorem stale_close_opens_second_socket
        (interval : option JS.number) (code : N) (h : UseWebSocket.Hook)
        (current old : nat) (message : string) :
  UseWebSocket.mountedRef h = true ->
  UseWebSocket.wsRef h = Some current ->
  nth_error (UseWebSocket.sockets h) current = Some UseWebSocket.OPEN ->
  old <> current ->
  code <> 1000%N ->
  let h1 := UseWebSocket.step interval true (UseWebSocket.Close old code) h in
  let h2 := UseWebSocket.step interval true
              (UseWebSocket.Timeout (UseWebSocket.nextHandle h)) h1 in
  UseWebSocket.wsRef h1 = None
  /\ UseWebSocket.isConnected h1 = false
  /\ UseWebSocket.fired h1
     = UseWebSocket.fired h ++ [UseWebSocket.onDisconnect]
  /\ nth_error (UseWebSocket.sockets h2) current = Some UseWebSocket.OPEN
  /\ UseWebSocket.wsRef h2 = Some (List.length (UseWebSocket.sockets h))
  /\ nth_error (UseWebSocket.sockets h2) (List.length (UseWebSocket.sockets h))
     = Some UseWebSocket.CONNECTING
  /\ current < List.length (UseWebSocket.sockets h)
  /\ UseWebSocket.send message h2 = h2.
Proof.
  intros Hm Hw Hopen Hold Hcode h1 h2.
  set (h0 := UseWebSocket.with_sockets
               (UseWebSocket.setReadyState
                  old UseWebSocket.CLOSED (UseWebSocket.sockets h)) h).
  assert (Hm0 : UseWebSocket.mountedRef h0 = true) by exact Hm.
  destruct (scheduled_timeout_state interval code h0 Hcode Hm0) as [Hs2 Hw2].
  change (UseWebSocket.nextHandle h0) with (UseWebSocket.nextHandle h) in *.
  change (UseWebSocket.onclose interval code h0) with h1 in *.
  fold h2 in Hs2, Hw2.
  assert (Hlen : List.length (UseWebSocket.sockets h0)
                 = List.length (UseWebSocket.sockets h))
    by apply setReadyState_length.
  assert (Hcur : current < List.length (UseWebSocket.sockets h)).
  { apply nth_error_Some; rewrite Hopen; discriminate. }
  assert (Hr2 : UseWebSocket.readyState h2 = Some UseWebSocket.CONNECTING).
  { unfold UseWebSocket.readyState; rewrite Hw2, Hs2; apply nth_error_last. }
  destruct (onclose_mounted interval code h0 Hm0) as [Hws1 [Hc1 Hf1]].
  repeat apply conj.
  - exact Hws1.
  - exact Hc1.
  - exact Hf1.
  - rewrite Hs2, nth_error_app1 by (rewrite Hlen; exact Hcur).
    unfold h0; simpl; rewrite setReadyState_other by congruence; exact Hopen.
  - rewrite Hw2, Hlen; reflexivity.
  - rewrite Hs2, <- Hlen; apply nth_error_last.
  - exact Hcur.
  - unfold UseWebSocket.send; rewrite Hr2, Hw2; reflexivity.
Qed.

Lemma stale_close_opens_second_socket_witness :
  let h := UseWebSocket.run None true
             [UseWebSocket.Mount; UseWebSocket.Unmount; UseWebSocket.Mount;
              UseWebSocket.Open 1] UseWebSocket.initial in
  let h2 := UseWebSocket.run None true
              [UseWebSocket.Close 0 1006; UseWebSocket.Timeout 1] h in
  UseWebSocket.sockets h2
  = [UseWebSocket.CLOSED; UseWebSocket.OPEN; UseWebSocket.CONNECTING]
  /\ UseWebSocket.wsRef h2 = Some 2
  /\ UseWebSocket.send "ping" h2 = h2.
Proof.
  intros h h2.
  destruct (stale_close_opens_second_socket None 1006 h 1 0 "ping")
    as [_ [_ [_ [_ [Hw [_ [_ Hsend]]]]]]];
    try reflexivity; try discriminate.
  split; [reflexivity|]; split; [exact Hw | exact Hsend].
Defined.

(** * Properties of the api client *)

Lemma stripPrefix_append (pat rest : string) :
  Api.stripPrefix pat (pat ++ rest)%string = Some rest.
Proof.
  induction pat as [|a pat IH]; simpl; [destruct rest; reflexivity|].
  rewrite Ascii.eqb_refl; exact IH.
Qed.

Lemma stripPrefix_Some (pat s rest : string) :
  Api.stripPrefix pat s = Some rest -> s = (pat ++ rest)%string.
Proof.
  revert s; induction pat as [|a pat IH]; intros s; simpl.
  - destruct s; intros H; injection H as <-; reflexivity.
  - destruct s as [|b s]; [discriminate|].
    destruct (Ascii.eqb_spec a b) as [<-|_]; [|discriminate].
    intros H; rewrite (IH s H); reflexivity.
Qed.

Lemma replace_prefix (pat rep rest : string) :
  Api.replace pat rep (pat ++ rest)%string = (rep ++ rest)%string.
Proof.
  destruct (pat ++ rest)%string eqn:Hs;
    simpl; rewrite <- Hs, stripPrefix_append; reflexivity.
Qed.

Lemma replace_absent (pat rep s : string) :
  Api.occurs pat s = false -> Api.replace pat rep s = s.
Proof.
  induction s as [|c s IH]; simpl.
  - destruct (Api.stripPrefix pat ""); [discriminate | reflexivity].
  - destruct (Api.stripPrefix pat (String c s)); [discriminate|].
    intros H; rewrite (IH H); reflexivity.
Qed.

(** [occurs] is occurrence as a substring. *)
Lemma occurs_spec (pat s : string) :
  Api.occurs pat s = true
  <-> exists pre post, s = (pre ++ pat ++ post)%string.
Proof.
  split.
  - induction s as [|c s IH]; simpl.
    + destruct (Api.stripPrefix pat "") as [post|] eqn:Hp; [|discriminate].
      intros _; exists "", post; exact (stripPrefix_Some _ _ _ Hp).
    + destruct (Api.stripPrefix pat (String c s)) as [post|] eqn:Hp.
      * intros _; exists "", post; exact (stripPrefix_Some _ _ _ Hp).
      * intros H; destruct (IH H) as [pre [post ->]].
        exists (String c pre), post; reflexivity.
  - intros [pre [post ->]]; induction pre as [|c pre IH]; simpl.
    + destruct (pat ++ post)%string eqn:Hs; simpl;
        rewrite <- Hs, stripPrefix_append; reflexivity.
    + destruct (Api.stripPrefix pat (String c (pre ++ pat ++ post)));
        [reflexivity | exact IH].
Qed.

Lemma append_assoc (a b c : string) :
  ((a ++ b) ++ c = a ++ b ++ c)%string.
Proof. induction a as [|x a IH]; simpl; [|rewrite IH]; reflexivity. Qed.

(** The first occurrence of [pat] is the one replaced: when [pat] does not
    occur at a position before the end of [pre], [pre], [pat], [post] becomes
    [pre], [rep], [post]. *)
Lemma replace_first (pat rep pre post : string) :
  (forall pre' post',
      String.length pre' < String.length pre ->
      (pre ++ pat ++ post)%string <> (pre' ++ pat ++ post')%string) ->
  Api.replace pat rep (pre ++ pat ++ post)%string
  = (pre ++ rep ++ post)%string.
Proof.
  induction pre as [|c pre IH]; intros Hfirst.
  - exact (replace_prefix pat rep post).
  - cbn [append Api.replace].
    destruct (Api.stripPrefix pat (String c (pre ++ pat ++ post)))
      as [rest|] eqn:Hp.
    + apply stripPrefix_Some in Hp; exfalso.
      apply (Hfirst "" rest); [simpl; lia | exact Hp].
    + rewrite IH; [reflexivity|].
      intros pre' post' Hlen Heq.
      apply (Hfirst (String c pre') post'); [simpl; lia|].
      simpl; rewrite Heq; reflexivity.
Qed.

(** X23: [getWebSocketUrl] replaces the first occurrence of http in the
    base url by ws, and only that one, and appends the path: whatever comes
    before the first http and after it is kept.  So a base that starts with
    http gives ws followed by the rest, https gives wss, and a base in which
    http does not occur is kept and gets the path all the same. *)
Theorem getWebSocketUrl_scheme (rest base : string) :
  (forall pre post,
      (forall pre' post',
          String.length pre' < String.length pre ->
          (pre ++ "http" ++ post)%string <> (pre' ++ "http" ++ post')%string) ->
      Api.getWebSocketUrl (pre ++ "http" ++ post)
      = (pre ++ "ws" ++ post ++ "/ws")%string)
  /\ Api.getWebSocketUrl ("http" ++ rest) = ("ws" ++ rest ++ "/ws")%string
  /\ Api.getWebSocketUrl ("https://" ++ rest)
     = ("wss://" ++ rest ++ "/ws")%string
  /\ (Api.occurs "http" base = false ->
      Api.getWebSocketUrl base = (base ++ "/ws")%string)
  /\ Api.getWebSocketUrl Api.API_BASE = "ws://localhost:8000/ws".
Proof.
  unfold Api.getWebSocketUrl; split; [|split; [|split; [|split]]].
  - intros pre post Hfirst; rewrite (replace_first _ _ _ _ Hfirst).
    rewrite append_assoc; f_equal; apply (append_assoc "ws").
  - rewrite replace_prefix, append_assoc; reflexivity.
  - change ("https://" ++ rest)%string with ("http" ++ "s://" ++ rest)%string.
    rewrite replace_prefix; reflexivity.
  - intros Habs; rewrite (replace_absent _ _ _ Habs); reflexivity.
  - reflexivity.
Qed.

Lemma getWebSocketUrl_scheme_witness :
  Api.getWebSocketUrl "localhost:8000" = "localhost:8000/ws"
  /\ Api.getWebSocketUrl "https://z.example/http"
     = "wss://z.example/http/ws"
  /\ Api.getWebSocketUrl "ahttp://z.example/http"
     = "aws://z.example/http/ws".
Proof.
  split; [|split].
  - apply (proj1 (proj2 (proj2 (proj2
             (getWebSocketUrl_scheme "" "localhost:8000"))))).
    reflexivity.
  - apply (proj1 (proj2 (proj2 (getWebSocketUrl_scheme "z.example/http" "")))).
  - apply (proj1 (getWebSocketUrl_scheme "" "") "a" "://z.example/http").
    intros pre' post' Hlen Heq.
    destruct pre' as [|c pre']; [discriminate Heq | simpl in Hlen; lia].
Defined.

(** X24: [request] returns a value only for a response whose status is in
    200 to 299 and whose body parses, and then returns that body; in every
    other case it throws.  For a status outside that range the error is an
    [Error] whose message is the detail of the body when it has a truthy one,
    HTTP and the status when it has none, and Unknown error when the body
    does not parse; a body that is [null] makes the read of its detail
    throw. *)
Theorem request_outcomes
        (nullReadMessage : string) {T : Type}
        (fetched : Api.JsError + Api.Response T) :
  (forall v,
      Api.request nullReadMessage fetched = inl v
      <-> exists response body,
          fetched = inr response
          /\ Api.ok response = true
          /\ Api.json response = inl body
          /\ Api.asT body = v)
  /\ (forall response,
         fetched = inr response ->
         Api.ok response = false ->
         Api.request nullReadMessage fetched
         = inr match Api.json response with
               | inl (Api.nullBody _) => Api.nullRead nullReadMessage
               | inl (Api.valueBody _ (Api.truthyDetail text)) =>
                   Api.newError text
               | inl (Api.valueBody _ Api.falsyDetail) =>
                   Api.newError ("HTTP " ++ Api.decimal (Api.status response))
               | inr _ => Api.newError "Unknown error"
               end)
  /\ (forall e, fetched = inl e -> Api.request nullReadMessage fetched = inr e).
Proof.
  split; [|split].
  - intros v; split.
    + destruct fetched as [e|response]; simpl; [discriminate|].
      destruct (Api.ok response) eqn:Hok; simpl.
      * destruct (Api.json response) as [body|e] eqn:Hj; [|discriminate].
        intros H; injection H as <-.
        exists response, body; repeat split; assumption.
      * destruct (Api.json response) as [[w|w [|text]]|e]; discriminate.
    + intros [response [body [-> [Hok [Hj <-]]]]]; simpl.
      rewrite Hok, Hj; reflexivity.
  - intros response -> Hok; simpl; rewrite Hok; simpl.
    destruct (Api.json response) as [[w|w [|text]]|e]; reflexivity.
  - intros e ->; reflexivity.
Qed.

Lemma request_outcomes_witness :
  let response : Api.Response unit :=
    {| Api.status := 404;
       Api.json := inl (Api.valueBody tt Api.falsyDetail) |} in
  Api.request "null has no properties" (inr response)
  = inr (Api.newError "HTTP 404").
Proof.
  intros response.
  apply (proj1 (proj2 (request_outcomes
                         "null has no properties" (inr response)))
               response eq_refl eq_refl).
Defined.

(** X25: however the request of a generation fails, the store ends idle
    with the gallery as it was and the message of the error as
    [generationError]: the detail the server sent, HTTP and the status,
    Unknown error, or the message of the error [fetch] rejected with.  When
    it succeeds the image is first in the gallery and there is no error. *)
Theorem generation_request_settled
        {File : Type} (parseInt : string -> JS.number)
        (nullReadMessage : string)
        (p : GeneratePage.PageState File) (s s1 : Store.AppState)
        (c : GeneratePage.ApiCall File)
        (fetched : Api.JsError + Api.Response GeneratedImage.t) :
  GeneratePage.handleGenerate parseInt p s = (s1, Some c) ->
  let s2 := GeneratePage.handleGenerate_settled
              (Api.awaited (Api.request nullReadMessage fetched)) s1 in
  Store.isGenerating s2 = false
  /\ match Api.request nullReadMessage fetched with
     | inl image =>
         Store.generatedImages s2 = image :: Store.generatedImages s
         /\ Store.generationError s2 = None
     | inr e =>
         Store.generatedImages s2 = Store.generatedImages s
         /\ Store.generationError s2 = Some (Api.errMessage e)
     end.
Proof.
  intros H s2; subst s2.
  destruct (handleGenerate_canGenerate parseInt p s s1 c H) as [_ ->].
  destruct (Api.request nullReadMessage fetched) as [image|e]; simpl;
    repeat split.
Qed.

Lemma generation_request_settled_witness :
  let response : Api.Response GeneratedImage.t :=
    {| Api.status := 503;
       Api.json := inr {| Api.errName := "SyntaxError";
                          Api.errMessage := "Unexpected token <" |} |} in
  Store.generationError
    (GeneratePage.handleGenerate_settled
       (Api.awaited (Api.request "null has no properties" (inr response)))
       (GeneratePage.begun (sampleStore "a cat")))
  = Some "Unknown error".
Proof.
  intros response.
  exact (proj2 (proj2 (generation_request_settled
                         noParse "null has no properties" samplePage
                         (sampleStore "a cat")
                         (GeneratePage.begun (sampleStore "a cat"))
                         (sampleCall "a cat") (inr response) eq_refl))).
Defined.

Example decimal_status :
  Api.decimal 404 = "404" /\ Api.decimal 0 = "0" /\ Api.decimal 1000 = "1000".
Proof. repeat split. Qed.

Example replace_first_only :
  Api.replace "http" "ws" "xhttp-http" = "xws-http".
Proof. reflexivity. Qed.

Example toUSVString_lone_surrogates :
  JS.toUSVString [0x61; 0xD83D; 0x62; 0xDE00; 0xD83D]%N
  = [0x61; 0xFFFD; 0x62; 0xFFFD; 0xFFFD]%N.
Proof. reflexivity. Qed.

Example toUSVString_keeps_pairs :
  JS.toUSVString [0x61; 0xD83D; 0xDE00; 0x62]%N
  = [0x61; 0xD83D; 0xDE00; 0x62]%N.
Proof. reflexivity. Qed.

Example dispatch_initial_state :
  snd (App.dispatch [heartbeat; initial_state; pong; initial_state]
                    Store.initial)
  = [App.fetchModels; App.fetchModels].
Proof. reflexivity. Qed.
